(** * OnAudience DMP client: a shallow embedding of [api_dmp.py]

    The development follows the single source file
    [onaudience_api/api_dmp.py], class [DatapointAssignmentController]:

    - Python values, exceptions and the string built-ins the class uses
      ([hex], slicing, [str.zfill], [str.format] on integers);
    - the identifier encoder [tohex];
    - the effectful part (HTTP calls through [requests.post], [print],
      [time.sleep]) as a state-and-exception monad over an explicit event
      trace, with the remote service as a parameter;
    - the constructor, [get_headers_with_token] and the six assignment
      methods, statement by statement in the order of the source. *)

From Stdlib Require Import ZArith Lia Ascii String DecimalString.
From stdpp Require Import base gmap strings list.

Local Open Scope Z_scope.
#[local] Set Warnings "-register-all".


(** ** Python values and exceptions *)

(** The values the class is handed at run time.  Python is dynamically
    typed, so arguments are values of one universe and the [isinstance]
    assertions of the source are run-time tests on it.  Floats and
    subclasses of the built-in types (bool among them) are outside the
    universe. *)
Inductive pyval : Type :=
| VNone
| VInt (z : Z)
| VStr (s : string)
| VList (l : list pyval)
| VDict (d : list (string * pyval)).

(** The exceptions that can end a method: those of the interpreter, and
    [requests.exceptions.RequestException] for a transport failure inside
    [requests.post]. *)
Inductive exn : Type :=
| AssertionError
| TypeError
| ValueError
| IndexError
| RequestException.

Inductive result (A : Type) : Type :=
| Ok (a : A)
| Raise (e : exn).
Arguments Ok {A} a.
Arguments Raise {A} e.

Definition isinstance_str (v : pyval) : bool :=
  match v with VStr _ => true | _ => false end.
Definition isinstance_int (v : pyval) : bool :=
  match v with VInt _ => true | _ => false end.
Definition isinstance_list (v : pyval) : bool :=
  match v with VList _ => true | _ => false end.

(** ** String built-ins *)

Module Str.

Fixpoint repeat (c : ascii) (n : nat) : string :=
  match n with
  | O => EmptyString
  | S n' => String c (repeat c n')
  end.

(** [s[n:]] *)
Fixpoint drop (n : nat) (s : string) : string :=
  match n, s with
  | O, _ => s
  | S _, EmptyString => EmptyString
  | S n', String _ s' => drop n' s'
  end.

Fixpoint forallb (p : ascii -> bool) (s : string) : bool :=
  match s with
  | EmptyString => true
  | String c s' => p c && forallb p s'
  end.

Definition is_sign (c : ascii) : bool :=
  (Ascii.eqb c "+" || Ascii.eqb c "-")%char.

(** [s.zfill(width)]: zeros are inserted on the left up to [width]; a
    leading sign stays in front of the zeros; a string that is already
    wide enough is returned as it is. *)
Definition zfill (width : nat) (s : string) : string :=
  let len := String.length s in
  if (width <=? len)%nat then s
  else
    let fill := repeat "0"%char (width - len) in
    match s with
    | String c rest =>
        if is_sign c then String c (fill +:+ rest) else fill +:+ s
    | EmptyString => fill
    end.

(** [str(z)] for an integer, as [str.format] inserts it in a URL. *)
Definition of_int (z : Z) : string :=
  NilZero.string_of_int (Z.to_int z).

End Str.

(** ** [hex] *)

Definition hex_alphabet : string := "0123456789abcdef".

Definition hex_digit (d : Z) : ascii :=
  match String.get (Z.to_nat d) hex_alphabet with
  | Some c => c
  | None => "0"%char
  end.

(** Digits of a non-negative integer, most significant first, by repeated
    division.  [fuel] bounds the number of digits. *)
Fixpoint hex_digits_fuel (fuel : nat) (n : Z) : string :=
  match fuel with
  | O => EmptyString
  | S fuel' =>
      if n <? 16 then String (hex_digit n) EmptyString
      else hex_digits_fuel fuel' (n / 16) +:+ String (hex_digit (n mod 16)) EmptyString
  end.

(** A number has no more hexadecimal digits than binary ones. *)
Definition hex_digits (n : Z) : string :=
  hex_digits_fuel (S (Z.to_nat (Z.log2 n))) n.

(** [hex(n)]: lowercase, prefixed with [0x], the sign in front. *)
Definition py_hex (n : Z) : string :=
  if n <? 0 then "-0x" +:+ hex_digits (- n) else "0x" +:+ hex_digits n.

(** ** [tohex]

    [[
    def tohex(self, val, nbits):
        h = hex((val + (1 << nbits)) % (1 << nbits))[2:]
        return h.zfill(16)
    ]]
    [1 << nbits] raises [ValueError] on a negative count, and the sum
    raises [TypeError] when [val] is not a number. *)
Definition tohex (val : pyval) (nbits : Z) : result string :=
  if nbits <? 0 then Raise ValueError
  else
    match val with
    | VInt v =>
        let h := Str.drop 2 (py_hex ((v + Z.shiftl 1 nbits) mod Z.shiftl 1 nbits)) in
        Ok (Str.zfill 16 h)
    | _ => Raise TypeError
    end.

(** ** The encoding in the words of the specification *)

(** Fixed-width hexadecimal: digit [i] from the right is the [i]-th
    nibble of [n]. *)
Fixpoint hex_fixed (width : nat) (n : Z) : string :=
  match width with
  | O => EmptyString
  | S w => String (hex_digit (Z.land (Z.shiftr n (4 * Z.of_nat w)) 15)) (hex_fixed w n)
  end.

(** Number of hexadecimal digits of the shortest representation. *)
Definition hex_len (n : Z) : nat := S (Z.to_nat (Z.log2 n / 4)).

(** "formats as lowercase hex" *)
Definition lower_hex (n : Z) : string := hex_fixed (hex_len n) n.

(** "left-pads with 0 to [width] characters" *)
Definition lpad0 (width : nat) (s : string) : string :=
  Str.repeat "0"%char (width - String.length s) +:+ s.

(** "Computes (value + 2^bits) mod 2^bits, formats as lowercase hex,
    left-pads with 0 to 16 characters." *)
Definition encodeUserId_spec (value bits : Z) : string :=
  lpad0 16 (lower_hex ((value + 2 ^ bits) mod 2 ^ bits)).

(** The two's-complement-style wrap of an integer to 63 bits: its low 63
    bits, as sixteen hexadecimal digits. *)
Definition wrap63_encoding (value : Z) : string :=
  hex_fixed 16 (Z.land value (Z.ones 63)).

Definition is_lower_hex (c : ascii) : bool :=
  let n := nat_of_ascii c in
  ((48 <=? n) && (n <=? 57) || (97 <=? n) && (n <=? 102))%nat.

(** Reading a hexadecimal string back. *)
Definition hex_value_digit (c : ascii) : Z :=
  let n := Z.of_nat (nat_of_ascii c) in
  if n <? 58 then n - 48 else n - 87.

Fixpoint hex_value_acc (acc : Z) (s : string) : Z :=
  match s with
  | EmptyString => acc
  | String c s' => hex_value_acc (16 * acc + hex_value_digit c) s'
  end.

Definition hex_value (s : string) : Z := hex_value_acc 0 s.

(** ** The outside world: HTTP, standard output, the clock *)

(** The arguments of one [requests.post] call.  The login call passes a
    URL only. *)
Record Request : Type := mkRequest {
  rq_url : string;
  rq_headers : option (gmap string pyval);
  rq_data : option string
}.

(** What the class reads of a [requests.Response]: its status code (the
    [repr] that [print] shows) and [r.headers.get]. *)
Record Response : Type := mkResponse {
  status_code : Z;
  headers_get : string -> option string
}.

Definition repr_response (r : Response) : string :=
  "<Response [" +:+ Str.of_int (status_code r) +:+ "]>".

(** What a method does to the outside, in order: a [requests.post] call,
    a printed line, a [time.sleep] (the source sleeps 0.8 s, logged as 800
    milliseconds). *)
Inductive event : Type :=
| EvPost (rq : Request)
| EvPrint (line : string)
| EvSleep (milliseconds : Z).

(** [template.format(args...)] for templates whose only fields are [{}]. *)
Fixpoint format (template : string) (args : list string) : string :=
  match template with
  | String "{" (String "}" rest) =>
      match args with
      | a :: args' => a +:+ format rest args'
      | [] => format rest []
      end
  | String c rest => String c (format rest args)
  | EmptyString => EmptyString
  end.

Record DatapointAssignmentController : Type := mkController {
  username : string;
  password : string;
  cmPartnerId : Z;
  content_type : string;
  response_content_type : string
}.

Section Controller.

(** The remote service answers a request from its current state, or the
    transport fails and [requests.post] raises.  [json.dumps] is the
    library's serialiser. *)
Context {World : Type}.
Variable requests_post : Request -> World -> option Response * World.
Variable json_dumps : pyval -> string.

Record state : Type := mkState {
  world : World;
  trace : list event
}.

(** Computations that may raise and that act on the world.  The state
    reached when an exception is raised is kept: it tells what had
    happened by then. *)
Definition M (A : Type) : Type := state -> result A * state.

Definition ret {A} (a : A) : M A := fun st => (Ok a, st).
Definition raise {A} (e : exn) : M A := fun st => (Raise e, st).
Definition bind {A B} (m : M A) (k : A -> M B) : M B :=
  fun st =>
    match m st with
    | (Ok a, st') => k a st'
    | (Raise e, st') => (Raise e, st')
    end.
Definition lift {A} (r : result A) : M A := fun st => (r, st).

Notation "x <- m ;; k" := (bind m (fun x => k))
  (at level 100, m at next level, right associativity).
Notation "m ;;; k" := (bind m (fun _ => k))
  (at level 100, right associativity).

Definition log (ev : event) : M unit :=
  fun st => (Ok tt, {| world := world st; trace := trace st ++ [ev] |}).

(** [requests.post(...)] *)
Definition post (rq : Request) : M Response :=
  fun st =>
    let '(answer, w) := requests_post rq (world st) in
    let st' := {| world := w; trace := trace st ++ [EvPost rq] |} in
    match answer with
    | Some r => (Ok r, st')
    | None => (Raise RequestException, st')
    end.

Definition print (line : string) : M unit := log (EvPrint line).
(** [time.sleep(0.8)] *)
Definition sleep (milliseconds : Z) : M unit := log (EvSleep milliseconds).

(** [assert isinstance(v, str)] and the like, with assertions enabled
    (the interpreter's default); the value comes back with its type. *)
Definition assert_str (v : pyval) : M string :=
  match v with VStr s => ret s | _ => raise AssertionError end.
Definition assert_int (v : pyval) : M Z :=
  match v with VInt z => ret z | _ => raise AssertionError end.
Definition assert_list (v : pyval) : M (list pyval) :=
  match v with VList l => ret l | _ => raise AssertionError end.

(** [[
    def __init__(self, username, password, cmPartnerId=1,
                 content_type='application/json', response_content_type='*/*'):
        assert isinstance(username, str)
        ...
    ]] *)
Definition init (username password cmPartnerId content_type
                 response_content_type : pyval)
  : M DatapointAssignmentController :=
  u <- assert_str username ;;
  p <- assert_str password ;;
  k <- assert_int cmPartnerId ;;
  ct <- assert_str content_type ;;
  rct <- assert_str response_content_type ;;
  ret (mkController u p k ct rct).

Definition init_default (username password : pyval)
  : M DatapointAssignmentController :=
  init username password (VInt 1) (VStr "application/json") (VStr "*/*").

Definition login_request (c : DatapointAssignmentController) : Request :=
  let url := "https://dmp-api.cloudtechnologies.dev/login?email={}&password={}" in
  mkRequest (format url [username c; password c]) None None.

Definition token_value (t : option string) : pyval :=
  match t with Some s => VStr s | None => VNone end.

(** [[
    def get_headers_with_token(self):
        r = requests.post(url.format(self.username, self.password))
        token = r.headers.get('X-Auth-Token')
        headers = {'accpet': self.response_content_type,
                   'X-Auth-Token': token,
                   'Content-Type': self.content_type}
        return headers
    ]] *)
Definition get_headers_with_token (c : DatapointAssignmentController)
  : M (gmap string pyval) :=
  r <- post (login_request c) ;;
  let token := token_value (headers_get r "X-Auth-Token") in
  let headers : gmap string pyval :=
    <["Content-Type" := VStr (content_type c)]>
      (<["X-Auth-Token" := token]>
         (<["accpet" := VStr (response_content_type c)]> ∅)) in
  ret headers.

(** [[self.tohex(val, 63) for val in userId]] *)
Fixpoint tohex_each (userId : list pyval) : result (list string) :=
  match userId with
  | [] => Ok []
  | val :: rest =>
      match tohex val 63 with
      | Ok h =>
          match tohex_each rest with
          | Ok hs => Ok (h :: hs)
          | Raise e => Raise e
          end
      | Raise e => Raise e
      end
  end.

Definition assignment_request (c : DatapointAssignmentController)
    (url : string) (headers : gmap string pyval) (payload : pyval)
    (i : string) : Request :=
  mkRequest (format url [Str.of_int (cmPartnerId c); i])
            (Some headers) (Some (json_dumps payload)).

(** The loop that ends each of the six methods:
    [[
    for i in h_userId:
        r = requests.post(url.format(self.cmPartnerId, i),
                          headers=headers, data=json.dumps(payload))
        print("{} : {}".format(i, r))
        time.sleep(0.8)
    ]] *)
Fixpoint post_each (c : DatapointAssignmentController) (url : string)
    (headers : gmap string pyval) (payload : pyval)
    (h_userId : list string) : M unit :=
  match h_userId with
  | [] => ret tt
  | i :: rest =>
      r <- post (assignment_request c url headers payload i) ;;
      (print (format "{} : {}" [i; repr_response r]) ;;;
       (sleep 800 ;;;
        post_each c url headers payload rest))
  end.

(** [[
    key_datapoints = []
    for i in datapointsList:
        key_datapoints.append({"id": i})
    ]] *)
Fixpoint key_datapoints_loop (datapointsList : list pyval)
    (key_datapoints : list pyval) : list pyval :=
  match datapointsList with
  | [] => key_datapoints
  | i :: rest =>
      key_datapoints_loop rest (key_datapoints ++ [VDict [("id", i)]])
  end.

(** [[
    key_datapoints_values = []
    for i in range(len(datapointsList)):
        key_datapoints_values.append({'id': datapointsList[i],
                                      'value': attribute_values[i]})
    ]]
    Indexing a list past its end raises [IndexError]. *)
Fixpoint key_values_loop (datapointsList attribute_values : list pyval)
    (range : list nat) (key_datapoints_values : list pyval)
  : result (list pyval) :=
  match range with
  | [] => Ok key_datapoints_values
  | i :: rest =>
      match datapointsList !! i with
      | None => Raise IndexError
      | Some d =>
          match attribute_values !! i with
          | None => Raise IndexError
          | Some v =>
              key_values_loop datapointsList attribute_values rest
                (key_datapoints_values ++ [VDict [("id", d); ("value", v)]])
          end
      end
  end.

Definition key_datapoints_values (datapointsList attribute_values : list pyval)
  : result (list pyval) :=
  key_values_loop datapointsList attribute_values
    (seq 0 (length datapointsList)) [].

(** *** The six assignment methods *)

Definition assign_event_to_user (c : DatapointAssignmentController)
    (userId datapoint : pyval) : M unit :=
  ids <- assert_list userId ;;
  d <- assert_int datapoint ;;
  h_userId <- lift (tohex_each ids) ;;
  headers <- get_headers_with_token c ;;
  let payload := VDict [("body", VDict [("id", VInt d)])] in
  let url := "https://dmp-api.cloudtechnologies.dev/event?cmPartnerId={}&userId={}" in
  post_each c url headers payload h_userId.

Definition assign_events_to_user (c : DatapointAssignmentController)
    (userId datapointsList : pyval) : M unit :=
  ids <- assert_list userId ;;
  dps <- assert_list datapointsList ;;
  h_userId <- lift (tohex_each ids) ;;
  let key_datapoints := key_datapoints_loop dps [] in
  headers <- get_headers_with_token c ;;
  let payload := VDict [("body", VList key_datapoints)] in
  let url := "https://dmp-api.cloudtechnologies.dev/events?cmPartnerId={}&userId={}" in
  post_each c url headers payload h_userId.

Definition assign_number_attribute (c : DatapointAssignmentController)
    (userId datapoint attribute_value : pyval) : M unit :=
  ids <- assert_list userId ;;
  d <- assert_int datapoint ;;
  a <- assert_int attribute_value ;;
  h_userId <- lift (tohex_each ids) ;;
  let url := "https://dmp-api.cloudtechnologies.dev/number-attribute?cmPartnerId={}&userId={}" in
  headers <- get_headers_with_token c ;;
  let payload := VDict [("body", VDict [("id", VInt d); ("value", VInt a)])] in
  post_each c url headers payload h_userId.

Definition assign_number_attributes (c : DatapointAssignmentController)
    (userId datapointsList attribute_values : pyval) : M unit :=
  ids <- assert_list userId ;;
  dps <- assert_list datapointsList ;;
  vals <- assert_list attribute_values ;;
  h_userId <- lift (tohex_each ids) ;;
  let url := "https://dmp-api.cloudtechnologies.dev/number-attributes?cmPartnerId={}&userId={}" in
  kdv <- lift (key_datapoints_values dps vals) ;;
  headers <- get_headers_with_token c ;;
  let payload := VDict [("body", VList kdv)] in
  post_each c url headers payload h_userId.

Definition assign_string_attribute (c : DatapointAssignmentController)
    (userId datapoint string_value : pyval) : M unit :=
  ids <- assert_list userId ;;
  d <- assert_int datapoint ;;
  sv <- assert_str string_value ;;
  h_userId <- lift (tohex_each ids) ;;
  let url := "https://dmp-api.cloudtechnologies.dev/string-attribute?cmPartnerId={}&userId={}" in
  headers <- get_headers_with_token c ;;
  let payload := VDict [("body", VDict [("id", VInt d); ("value", VStr sv)])] in
  post_each c url headers payload h_userId.

Definition assign_string_attributes (c : DatapointAssignmentController)
    (userId datapointsList string_values : pyval) : M unit :=
  ids <- assert_list userId ;;
  dps <- assert_list datapointsList ;;
  vals <- assert_list string_values ;;
  h_userId <- lift (tohex_each ids) ;;
  let url := "https://dmp-api.cloudtechnologies.dev/string-attributes?cmPartnerId={}&userId={}" in
  kds <- lift (key_datapoints_values dps vals) ;;
  headers <- get_headers_with_token c ;;
  let payload := VDict [("body", VList kds)] in
  post_each c url headers payload h_userId.

End Controller.

(** ** Calls, as the properties below quantify over them *)

(** One call of one of the six assignment methods, with its arguments. *)
Inductive call : Type :=
| AssignEventToUser (userId datapoint : pyval)
| AssignEventsToUser (userId datapointsList : pyval)
| AssignNumberAttribute (userId datapoint attribute_value : pyval)
| AssignNumberAttributes (userId datapointsList attribute_values : pyval)
| AssignStringAttribute (userId datapoint string_value : pyval)
| AssignStringAttributes (userId datapointsList string_values : pyval).

Definition call_userId (k : call) : pyval :=
  match k with
  | AssignEventToUser u _ | AssignEventsToUser u _
  | AssignNumberAttribute u _ _ | AssignNumberAttributes u _ _
  | AssignStringAttribute u _ _ | AssignStringAttributes u _ _ => u
  end.

(** The URL template of each method, as its body spells it. *)
Definition call_url (k : call) : string :=
  match k with
  | AssignEventToUser _ _ =>
      "https://dmp-api.cloudtechnologies.dev/event?cmPartnerId={}&userId={}"
  | AssignEventsToUser _ _ =>
      "https://dmp-api.cloudtechnologies.dev/events?cmPartnerId={}&userId={}"
  | AssignNumberAttribute _ _ _ =>
      "https://dmp-api.cloudtechnologies.dev/number-attribute?cmPartnerId={}&userId={}"
  | AssignNumberAttributes _ _ _ =>
      "https://dmp-api.cloudtechnologies.dev/number-attributes?cmPartnerId={}&userId={}"
  | AssignStringAttribute _ _ _ =>
      "https://dmp-api.cloudtechnologies.dev/string-attribute?cmPartnerId={}&userId={}"
  | AssignStringAttributes _ _ _ =>
      "https://dmp-api.cloudtechnologies.dev/string-attributes?cmPartnerId={}&userId={}"
  end.

(** The user ids are a list of integers. *)
Definition int_list (v : pyval) : bool :=
  match v with VList l => forallb isinstance_int l | _ => false end.

(** The value list is at least as long as the datapoint list. *)
Definition covers (datapointsList values : pyval) : bool :=
  match datapointsList, values with
  | VList dps, VList vals => (length dps <=? length vals)%nat
  | _, _ => false
  end.

(** The arguments of a call have the types its assertions ask for, the
    user ids are integers, and a plural attribute call has a value for each
    datapoint. *)
Definition well_formed (k : call) : bool :=
  int_list (call_userId k) &&
  match k with
  | AssignEventToUser _ d => isinstance_int d
  | AssignEventsToUser _ dl => isinstance_list dl
  | AssignNumberAttribute _ d a => isinstance_int d && isinstance_int a
  | AssignStringAttribute _ d s => isinstance_int d && isinstance_str s
  | AssignNumberAttributes _ dl vl | AssignStringAttributes _ dl vl => covers dl vl
  end.

Definition expect_list (v : pyval) : result (list pyval) :=
  match v with VList l => Ok l | _ => Raise AssertionError end.
Definition expect_int (v : pyval) : result Z :=
  match v with VInt z => Ok z | _ => Raise AssertionError end.
Definition expect_str (v : pyval) : result string :=
  match v with VStr s => Ok s | _ => Raise AssertionError end.

Definition and_then {A B} (r : result A) (k : A -> result B) : result B :=
  match r with Ok a => k a | Raise e => Raise e end.

(** What a call computes before it touches the network: the encoded user
    ids and the payload, or the exception that ends it. *)
Definition prepare (k : call) : result (list string * pyval) :=
  match k with
  | AssignEventToUser u d =>
      and_then (expect_list u) (fun ids =>
      and_then (expect_int d) (fun d =>
      and_then (tohex_each ids) (fun hs =>
      Ok (hs, VDict [("body", VDict [("id", VInt d)])]))))
  | AssignEventsToUser u dl =>
      and_then (expect_list u) (fun ids =>
      and_then (expect_list dl) (fun dps =>
      and_then (tohex_each ids) (fun hs =>
      Ok (hs, VDict [("body", VList (key_datapoints_loop dps []))]))))
  | AssignNumberAttribute u d a =>
      and_then (expect_list u) (fun ids =>
      and_then (expect_int d) (fun d =>
      and_then (expect_int a) (fun a =>
      and_then (tohex_each ids) (fun hs =>
      Ok (hs, VDict [("body", VDict [("id", VInt d); ("value", VInt a)])])))))
  | AssignStringAttribute u d s =>
      and_then (expect_list u) (fun ids =>
      and_then (expect_int d) (fun d =>
      and_then (expect_str s) (fun s =>
      and_then (tohex_each ids) (fun hs =>
      Ok (hs, VDict [("body", VDict [("id", VInt d); ("value", VStr s)])])))))
  | AssignNumberAttributes u dl vl | AssignStringAttributes u dl vl =>
      and_then (expect_list u) (fun ids =>
      and_then (expect_list dl) (fun dps =>
      and_then (expect_list vl) (fun vals =>
      and_then (tohex_each ids) (fun hs =>
      and_then (key_datapoints_values dps vals) (fun kdv =>
      Ok (hs, VDict [("body", VList kdv)]))))))
  end.

(** The descriptor [{'id': d, 'value': v}] of a plural attribute payload. *)
Definition descriptor (d v : pyval) : pyval := VDict [("id", d); ("value", v)].

(** The header map that [get_headers_with_token] returns for a token. *)
Definition auth_headers (c : DatapointAssignmentController) (token : pyval)
  : gmap string pyval :=
  <["Content-Type" := VStr (content_type c)]>
    (<["X-Auth-Token" := token]>
       (<["accpet" := VStr (response_content_type c)]> ∅)).

Definition requests_in (tr : list event) : list Request :=
  omap (fun ev => match ev with EvPost rq => Some rq | _ => None end) tr.

Section Calls.

Context {World : Type}.
Variable requests_post : Request -> World -> option Response * World.
Variable json_dumps : pyval -> string.

Definition run_call (c : DatapointAssignmentController) (k : call)
  : M unit :=
  match k with
  | AssignEventToUser u d =>
      assign_event_to_user requests_post json_dumps c u d
  | AssignEventsToUser u dl =>
      assign_events_to_user requests_post json_dumps c u dl
  | AssignNumberAttribute u d a =>
      assign_number_attribute requests_post json_dumps c u d a
  | AssignNumberAttributes u dl vl =>
      assign_number_attributes requests_post json_dumps c u dl vl
  | AssignStringAttribute u d s =>
      assign_string_attribute requests_post json_dumps c u d s
  | AssignStringAttributes u dl vl =>
      assign_string_attributes requests_post json_dumps c u dl vl
  end.

(** No transport failure: every [requests.post] returns a response. *)
Definition responsive : Prop :=
  forall rq w, (requests_post rq w).1 <> None.

End Calls.

(** One of the two plural attribute methods. *)
Definition plural_attribute_call (numeric : bool)
    (userId datapointsList values : pyval) : call :=
  if numeric then AssignNumberAttributes userId datapointsList values
  else AssignStringAttributes userId datapointsList values.

(** [kdv] has one descriptor per datapoint, the [i]-th made of the [i]-th
    datapoint and the [i]-th value. *)
Definition pairs_positionally (dps vals kdv : list pyval) : Prop :=
  length kdv = length dps /\
  forall i d, dps !! i = Some d ->
    exists v, vals !! i = Some v /\
              kdv !! i = Some (VDict [("id", d); ("value", v)]).

(** ** A concrete setting for the scenarios *)

Definition dquote : string := String (ascii_of_nat 34) EmptyString.

Fixpoint json_escape (s : string) : string :=
  match s with
  | EmptyString => EmptyString
  | String c s' =>
      if (Nat.eqb (nat_of_ascii c) 34 || Nat.eqb (nat_of_ascii c) 92)%bool
      then String (ascii_of_nat 92) (String c (json_escape s'))
      else String c (json_escape s')
  end.

Definition json_string (s : string) : string :=
  dquote +:+ json_escape s +:+ dquote.

(** [json.dumps] with its default separators, on values whose strings are
    printable ASCII. *)
Fixpoint json_text (v : pyval) : string :=
  match v with
  | VNone => "null"
  | VInt z => Str.of_int z
  | VStr s => json_string s
  | VList l =>
      "[" +:+
      (fix items (l : list pyval) : string :=
         match l with
         | [] => EmptyString
         | x :: l' =>
             match l' with
             | [] => json_text x
             | _ :: _ => json_text x +:+ ", " +:+ items l'
             end
         end) l +:+ "]"
  | VDict d =>
      "{" +:+
      (fix members (d : list (string * pyval)) : string :=
         match d with
         | [] => EmptyString
         | (key, x) :: d' =>
             match d' with
             | [] => json_string key +:+ ": " +:+ json_text x
             | _ :: _ => json_string key +:+ ": " +:+ json_text x +:+ ", " +:+ members d'
             end
         end) d +:+ "}"
  end.

(** A login response that carries a token, and one that does not. *)
Definition response_with_token : Response :=
  mkResponse 200
    (fun name => if String.eqb name "X-Auth-Token" then Some "t0k3n" else None).

Definition response_without_token : Response :=
  mkResponse 200 (fun _ => None).

(** A service without state that answers every request with [r]. *)
Definition service (r : Response) : Request -> unit -> option Response * unit :=
  fun _ w => (Some r, w).

Definition idle : @state unit := mkState tt [].

Definition client : DatapointAssignmentController :=
  mkController "user@example.com" "secret" 1 "application/json" "*/*".

(** ** Further vocabulary for the properties of the six methods *)

(** The [assert isinstance] lines of a method all pass. *)
Definition types_ok (k : call) : bool :=
  isinstance_list (call_userId k) &&
  match k with
  | AssignEventToUser _ d => isinstance_int d
  | AssignEventsToUser _ dl => isinstance_list dl
  | AssignNumberAttribute _ d a => isinstance_int d && isinstance_int a
  | AssignStringAttribute _ d s => isinstance_int d && isinstance_str s
  | AssignNumberAttributes _ dl vl | AssignStringAttributes _ dl vl =>
      isinstance_list dl && isinstance_list vl
  end.

(** The same call on other user ids. *)
Definition with_userId (k : call) (userId : pyval) : call :=
  match k with
  | AssignEventToUser _ d => AssignEventToUser userId d
  | AssignEventsToUser _ dl => AssignEventsToUser userId dl
  | AssignNumberAttribute _ d a => AssignNumberAttribute userId d a
  | AssignNumberAttributes _ dl vl => AssignNumberAttributes userId dl vl
  | AssignStringAttribute _ d s => AssignStringAttribute userId d s
  | AssignStringAttributes _ dl vl => AssignStringAttributes userId dl vl
  end.

(** The path of each method's URL. *)
Definition endpoint (k : call) : string :=
  match k with
  | AssignEventToUser _ _ => "event"
  | AssignEventsToUser _ _ => "events"
  | AssignNumberAttribute _ _ _ => "number-attribute"
  | AssignNumberAttributes _ _ _ => "number-attributes"
  | AssignStringAttribute _ _ _ => "string-attribute"
  | AssignStringAttributes _ _ _ => "string-attributes"
  end.

(** The payload literal of the three methods that take one datapoint. *)
Definition singular_payload (k : call) : option pyval :=
  match k with
  | AssignEventToUser _ (VInt d) =>
      Some (VDict [("body", VDict [("id", VInt d)])])
  | AssignNumberAttribute _ (VInt d) (VInt a) =>
      Some (VDict [("body", VDict [("id", VInt d); ("value", VInt a)])])
  | AssignStringAttribute _ (VInt d) (VStr s) =>
      Some (VDict [("body", VDict [("id", VInt d); ("value", VStr s)])])
  | _ => None
  end.

(** A service that answers its first [n] requests with [r] and then
    fails; its state counts the requests. *)
Definition service_failing_after (n : nat) (r : Response)
  : Request -> nat -> option Response * nat :=
  fun _ count => (if Nat.ltb count n then Some r else None, S count).

(** ** The requests of a call, spelled out from the source

    These say what the source text asks for, apart from the definitions
    that embed the methods: the URL literals with their two fields filled
    in, the [headers=] and [data=] arguments, the printed line. *)

(** The login request: [requests.post(url.format(username, password))],
    a URL and nothing else. *)
Definition expected_login (c : DatapointAssignmentController) : Request :=
  mkRequest
    ("https://dmp-api.cloudtechnologies.dev/login?email=" +:+ username c +:+
     "&password=" +:+ password c)
    None None.

(** The request of one turn of a method's loop, for the encoded user id
    [i]: the URL of the method with the partner id and [i], the header map
    as [headers=], the serialised payload as [data=]. *)
Definition expected_request (json_dumps : pyval -> string)
    (c : DatapointAssignmentController) (k : call)
    (headers : gmap string pyval) (payload : pyval) (i : string) : Request :=
  mkRequest
    ("https://dmp-api.cloudtechnologies.dev/" +:+ endpoint k +:+
     "?cmPartnerId=" +:+ Str.of_int (cmPartnerId c) +:+ "&userId=" +:+ i)
    (Some headers) (Some (json_dumps payload)).

(** One turn of the loop seen from outside: the request, the line printed
    with the response that came back, the pause of 0.8 s. *)
Definition expected_turn (rq : Request) (i : string) (r : Response) : list event :=
  [EvPost rq;
   EvPrint (i +:+ " : <Response [" +:+ Str.of_int (status_code r) +:+ "]>");
   EvSleep 800].

(** [hs] are the encodings of the user ids [ids], one for one and in
    order. *)
Definition encodes (ids : list pyval) (hs : list string) : Prop :=
  Forall2 (fun id h => tohex id 63 = Ok h) ids hs.

(** The responses that the service gives to the requests [rqs], made one
    after the other from the world [w], up to the first that fails. *)
Fixpoint responses_to {World : Type}
    (requests_post : Request -> World -> option Response * World)
    (rqs : list Request) (w : World) : list Response :=
  match rqs with
  | [] => []
  | rq :: rest =>
      match requests_post rq w with
      | (Some r, w') => r :: responses_to requests_post rest w'
      | (None, _) => []
      end
  end.

(** A service whose answer depends on how many requests it has had. *)
Definition service_by_count (answer : nat -> option Response)
  : Request -> nat -> option Response * nat :=
  fun _ count => (answer count, S count).

(** The login is answered with a token, the first assignment request
    with status 404, the later ones with status 200. *)
Definition answers_404_then_200 (count : nat) : option Response :=
  match count with
  | O => Some response_with_token
  | S O => Some (mkResponse 404 (fun _ => None))
  | S (S _) => Some (mkResponse 200 (fun _ => None))
  end.

Section CallsSpelledOut.

Context {World : Type}.
Variable requests_post : Request -> World -> option Response * World.
Variable json_dumps : pyval -> string.

(** Started in [st], the call makes one login request and then one
    request per user id, in the order of the list: each to the URL of the
    method with the encoding of that user id, and each with the header map
    that the login of this call returned. *)
Definition one_login_then_one_post_per_user
    (c : DatapointAssignmentController) (k : call) (st : state) : Prop :=
  exists ids hs headers payload st1,
    call_userId k = VList ids /\
    encodes ids hs /\ length hs = length ids /\
    get_headers_with_token requests_post c st = (Ok headers, st1) /\
    requests_in (trace (run_call requests_post json_dumps c k st).2) =
      requests_in (trace st) ++
      expected_login c ::
      map (expected_request json_dumps c k headers payload) hs.

End CallsSpelledOut.

(** * Properties *)

(** ** The built-ins on concrete values *)

Example tohex_0 : tohex (VInt 0) 63 = Ok "0000000000000000".
Proof. reflexivity. Qed.
Example tohex_255 : tohex (VInt 255) 63 = Ok "00000000000000ff".
Proof. reflexivity. Qed.
Example tohex_max : tohex (VInt (2 ^ 63 - 1)) 63 = Ok "7fffffffffffffff".
Proof. vm_compute. reflexivity. Qed.
Example tohex_neg1 : tohex (VInt (-1)) 63 = Ok "7fffffffffffffff".
Proof. vm_compute. reflexivity. Qed.
Example py_hex_neg : py_hex (-255) = "-0xff".
Proof. reflexivity. Qed.
Example zfill_sign : Str.zfill 5 "-7" = "-0007".
Proof. reflexivity. Qed.
Example spec_255 : encodeUserId_spec 255 63 = "00000000000000ff".
Proof. vm_compute. reflexivity. Qed.
Example wrap_neg1 : wrap63_encoding (-1) = "7fffffffffffffff".
Proof. vm_compute. reflexivity. Qed.
Example of_int_neg : Str.of_int (-12) = "-12".
Proof. reflexivity. Qed.
Example of_int_0 : Str.of_int 0 = "0".
Proof. reflexivity. Qed.
Example format_two : format "a={}&b={}" ["1"; "x"] = "a=1&b=x".
Proof. reflexivity. Qed.
Example json_text_event :
  json_text (VDict [("body", VDict [("id", VInt 42)])]) =
  "{" +:+ dquote +:+ "body" +:+ dquote +:+ ": {" +:+ dquote +:+ "id" +:+ dquote +:+ ": 42}}".
Proof. reflexivity. Qed.

(** ** Strings *)

(** On a string that does not start with a sign, [zfill] is plain padding
    on the left. *)
Lemma zfill_unsigned width c rest :
  Str.is_sign c = false ->
  Str.zfill width (String c rest) = lpad0 width (String c rest).
Proof.
  intros Hc. unfold Str.zfill, lpad0.
  destruct (Nat.leb_spec width (String.length (String c rest))) as [Hle|Hlt].
  - replace (width - String.length (String c rest))%nat with 0%nat by lia.
    reflexivity.
  - now rewrite Hc.
Qed.

(** ** Hexadecimal digits *)

Lemma nibble_cases d :
  0 <= d < 16 ->
  d = 0 \/ d = 1 \/ d = 2 \/ d = 3 \/ d = 4 \/ d = 5 \/ d = 6 \/ d = 7 \/
  d = 8 \/ d = 9 \/ d = 10 \/ d = 11 \/ d = 12 \/ d = 13 \/ d = 14 \/ d = 15.
Proof. lia. Qed.

Ltac each_nibble d H :=
  let C := fresh "C" in
  pose proof (nibble_cases d H) as C;
  repeat (destruct C as [C|C]; [subst d; try reflexivity|]);
  subst d; try reflexivity.

Lemma hex_digit_lower d : 0 <= d < 16 -> is_lower_hex (hex_digit d) = true.
Proof. intros H. each_nibble d H. Qed.

Lemma hex_digit_value d : 0 <= d < 16 -> hex_value_digit (hex_digit d) = d.
Proof. intros H. each_nibble d H. Qed.

Lemma hex_digit_unsigned d : 0 <= d < 16 -> Str.is_sign (hex_digit d) = false.
Proof. intros H. each_nibble d H. Qed.

Lemma nibble_eq n (w : nat) :
  Z.land (Z.shiftr n (4 * Z.of_nat w)) 15 = (n / 16 ^ Z.of_nat w) mod 16.
Proof.
  change 15 with (Z.ones 4). rewrite Z.land_ones by lia.
  rewrite Z.shiftr_div_pow2 by lia.
  rewrite Z.pow_mul_r by lia. reflexivity.
Qed.

Lemma nibble_range n (w : nat) :
  0 <= Z.land (Z.shiftr n (4 * Z.of_nat w)) 15 < 16.
Proof. rewrite nibble_eq. apply Z.mod_pos_bound. lia. Qed.

Lemma hex_fixed_length w n : String.length (hex_fixed w n) = w.
Proof. induction w; simpl; congruence. Qed.

Lemma hex_fixed_lower w n : Str.forallb is_lower_hex (hex_fixed w n) = true.
Proof.
  induction w as [|w IH]; simpl; [reflexivity|].
  rewrite IH, hex_digit_lower by apply nibble_range. reflexivity.
Qed.

Lemma hex_value_fixed w n acc :
  hex_value_acc acc (hex_fixed w n) = acc * 16 ^ Z.of_nat w + n mod 16 ^ Z.of_nat w.
Proof.
  revert acc. induction w as [|w IH]; intros acc.
  - simpl. rewrite Z.mod_1_r. lia.
  - cbn [hex_fixed hex_value_acc]. rewrite IH.
    rewrite hex_digit_value by apply nibble_range.
    rewrite nibble_eq.
    rewrite Nat2Z.inj_succ, Z.pow_succ_r by lia.
    rewrite (Z.mul_comm 16 (16 ^ Z.of_nat w)).
    rewrite (Z.rem_mul_r n (16 ^ Z.of_nat w) 16) by lia.
    lia.
Qed.

(** The last digit is the remainder, the digits before it are those of the
    quotient. *)
Lemma hex_fixed_snoc w n :
  hex_fixed (S w) n =
  hex_fixed w (n / 16) +:+ String (hex_digit (n mod 16)) EmptyString.
Proof.
  induction w as [|w IH].
  - cbn [hex_fixed String.append]. rewrite nibble_eq.
    change (16 ^ Z.of_nat 0) with 1. now rewrite Z.div_1_r.
  - change (hex_fixed (S (S w)) n)
      with (String (hex_digit (Z.land (Z.shiftr n (4 * Z.of_nat (S w))) 15))
              (hex_fixed (S w) n)).
    rewrite IH. cbn [hex_fixed String.append]. f_equal. f_equal.
    rewrite !nibble_eq.
    rewrite Nat2Z.inj_succ, Z.pow_succ_r by lia.
    now rewrite Z.div_div by lia.
Qed.

(** A leading digit beyond the size of the number is a zero. *)
Lemma hex_fixed_lead w n :
  0 <= n < 16 ^ Z.of_nat w ->
  hex_fixed (S w) n = String "0"%char (hex_fixed w n).
Proof.
  intros H. cbn [hex_fixed]. rewrite nibble_eq.
  rewrite Z.div_small by lia. reflexivity.
Qed.

Lemma hex_fixed_pad (j w : nat) n :
  0 <= n < 16 ^ Z.of_nat w ->
  hex_fixed (j + w) n = Str.repeat "0"%char j +:+ hex_fixed w n.
Proof.
  intros H. induction j as [|j IH]; [reflexivity|].
  change (S j + w)%nat with (S (j + w)).
  rewrite hex_fixed_lead.
  - rewrite IH. reflexivity.
  - split; [lia|]. apply Z.lt_le_trans with (16 ^ Z.of_nat w); [lia|].
    apply Z.pow_le_mono_r; lia.
Qed.

(** ** [hex] against the positional reading *)

Lemma hex_len_small n : 0 <= n < 16 -> hex_len n = 1%nat.
Proof.
  intros H. unfold hex_len.
  destruct (Z.eq_dec n 0) as [->|Hn]; [reflexivity|].
  assert (Z.log2 n < 4) by (apply Z.log2_lt_pow2; lia).
  pose proof (Z.log2_nonneg n).
  rewrite Z.div_small by lia. reflexivity.
Qed.

Lemma hex_len_step n : 16 <= n -> hex_len n = S (hex_len (n / 16)).
Proof.
  intros H. unfold hex_len.
  change (n / 16) with (n / 2 ^ 4). rewrite <- Z.shiftr_div_pow2 by lia.
  rewrite Z.log2_shiftr by lia.
  assert (4 <= Z.log2 n) by (apply Z.log2_le_pow2; lia).
  rewrite Z.max_r by lia.
  replace (Z.log2 n) with (Z.log2 n - 4 + 1 * 4) at 1 by lia.
  rewrite Z.div_add by lia.
  pose proof (Z.div_pos (Z.log2 n - 4) 4).
  rewrite Z2Nat.inj_add by lia. simpl. lia.
Qed.

(** The number is below sixteen to the number of its digits. *)
Lemma hex_len_bound n : 0 <= n -> n < 16 ^ Z.of_nat (hex_len n).
Proof.
  intros H. destruct (Z.eq_dec n 0) as [->|Hn]; [reflexivity|].
  unfold hex_len.
  pose proof (Z.log2_nonneg n) as Hl.
  pose proof (Z.div_pos (Z.log2 n) 4 Hl ltac:(lia)) as Hq.
  rewrite Nat2Z.inj_succ, Z2Nat.id by lia.
  change 16 with (2 ^ 4). rewrite <- Z.pow_mul_r by lia.
  apply Z.lt_le_trans with (2 ^ Z.succ (Z.log2 n)).
  - apply Z.log2_spec. lia.
  - apply Z.pow_le_mono_r; [lia|].
    pose proof (Z.mul_div_le (Z.log2 n) 4).
    pose proof (Z.mod_pos_bound (Z.log2 n) 4).
    pose proof (Z.div_mod (Z.log2 n) 4). lia.
Qed.

(** With fuel for every digit, repeated division yields the positional
    digits. *)
Lemma hex_digits_fuel_fixed fuel n :
  (0 < fuel)%nat ->
  0 <= n < 16 ^ Z.of_nat fuel ->
  hex_digits_fuel fuel n = hex_fixed (hex_len n) n.
Proof.
  revert n. induction fuel as [|fuel IH]; intros n Hf H; [lia|].
  - cbn [hex_digits_fuel]. destruct (Z.ltb_spec n 16) as [Hs|Hb].
    + rewrite hex_len_small by lia. cbn [hex_fixed]. rewrite nibble_eq.
      change (16 ^ Z.of_nat 0) with 1. rewrite Z.div_1_r.
      now rewrite Z.mod_small by lia.
    + rewrite hex_len_step, hex_fixed_snoc by lia.
      rewrite Nat2Z.inj_succ, Z.pow_succ_r in H by lia.
      rewrite IH; [reflexivity| |].
      * destruct fuel; [|lia]. change (16 ^ Z.of_nat 0) with 1 in H. lia.
      * split; [apply Z.div_pos; lia|].
        apply Z.div_lt_upper_bound; lia.
Qed.

(** The fuel that [hex_digits] takes is enough for every number. *)
Lemma hex_digits_fuel_enough n :
  0 <= n -> n < 16 ^ Z.of_nat (S (Z.to_nat (Z.log2 n))).
Proof.
  intros H. destruct (Z.eq_dec n 0) as [->|Hn]; [reflexivity|].
  pose proof (Z.log2_nonneg n) as Hl.
  rewrite Nat2Z.inj_succ, Z2Nat.id by lia.
  apply Z.lt_le_trans with (2 ^ Z.succ (Z.log2 n)).
  - apply Z.log2_spec. lia.
  - apply Z.pow_le_mono_l. lia.
Qed.

Lemma hex_digits_lower_hex n : 0 <= n -> hex_digits n = lower_hex n.
Proof.
  intros H. unfold hex_digits, lower_hex.
  apply hex_digits_fuel_fixed; [lia|]. split; [lia|].
  now apply hex_digits_fuel_enough.
Qed.

Lemma py_hex_nonneg n : 0 <= n -> Str.drop 2 (py_hex n) = lower_hex n.
Proof.
  intros H. unfold py_hex.
  destruct (Z.ltb_spec n 0); [lia|].
  cbn [String.append Str.drop]. now apply hex_digits_lower_hex.
Qed.

Lemma zfill_lower_hex width n : Str.zfill width (lower_hex n) = lpad0 width (lower_hex n).
Proof.
  unfold lower_hex, hex_len. cbn [hex_fixed].
  apply zfill_unsigned, hex_digit_unsigned, nibble_range.
Qed.

Lemma wrap_mod v bits : 0 <= bits ->
  (v + Z.shiftl 1 bits) mod Z.shiftl 1 bits = v mod 2 ^ bits.
Proof.
  intros H. rewrite Z.shiftl_1_l.
  replace (v + 2 ^ bits) with (v + 1 * 2 ^ bits) by lia.
  apply Z_mod_plus_full.
Qed.

(** [tohex] computes what the specification describes, for every integer
    and every non-negative width. *)
Lemma tohex_encodeUserId_spec v bits :
  0 <= bits -> tohex (VInt v) bits = Ok (encodeUserId_spec v bits).
Proof.
  intros H. unfold tohex, encodeUserId_spec.
  destruct (Z.ltb_spec bits 0); [lia|].
  rewrite <- Z.shiftl_1_l.
  assert (0 <= (v + Z.shiftl 1 bits) mod Z.shiftl 1 bits).
  { apply Z.mod_pos_bound. rewrite Z.shiftl_1_l. apply Z.pow_pos_nonneg; lia. }
  rewrite py_hex_nonneg by assumption.
  now rewrite zfill_lower_hex.
Qed.

(** Padding the shortest representation to sixteen digits gives the sixteen
    nibbles. *)
Lemma lpad0_lower_hex n :
  0 <= n < 2 ^ 64 -> lpad0 16 (lower_hex n) = hex_fixed 16 n.
Proof.
  intros H. unfold lpad0, lower_hex. rewrite hex_fixed_length.
  assert (hex_len n <= 16)%nat as Hlen.
  { unfold hex_len. destruct (Z.eq_dec n 0) as [->|Hn]; [vm_compute; lia|].
    assert (Z.log2 n < 64) by (apply Z.log2_lt_pow2; lia).
    pose proof (Z.log2_nonneg n).
    assert (Z.log2 n / 4 < 16) by (apply Z.div_lt_upper_bound; lia).
    pose proof (Z.div_pos (Z.log2 n) 4). lia. }
  rewrite <- hex_fixed_pad.
  - f_equal. lia.
  - split; [lia|]. apply hex_len_bound. lia.
Qed.

Lemma tohex_63 v : tohex (VInt v) 63 = Ok (hex_fixed 16 (v mod 2 ^ 63)).
Proof.
  rewrite tohex_encodeUserId_spec by lia. unfold encodeUserId_spec.
  replace ((v + 2 ^ 63) mod 2 ^ 63) with (v mod 2 ^ 63)
    by (now rewrite <- (wrap_mod v 63), Z.shiftl_1_l by lia).
  rewrite lpad0_lower_hex; [reflexivity|].
  pose proof (Z.mod_pos_bound v (2 ^ 63)). lia.
Qed.

Lemma hex_value_fixed16 n : 0 <= n < 2 ^ 64 -> hex_value (hex_fixed 16 n) = n.
Proof.
  intros H. unfold hex_value. rewrite hex_value_fixed.
  change (16 ^ Z.of_nat 16) with (2 ^ 64). rewrite Z.mod_small by lia. lia.
Qed.

(** ** Building the payload *)

Lemma key_values_loop_ok (dps vals : list pyval) n a acc :
  (a + n = length dps)%nat -> (length dps <= length vals)%nat ->
  key_values_loop dps vals (seq a n) acc =
  Ok (acc ++ zip_with descriptor (drop a dps) (drop a vals)).
Proof.
  revert a acc. induction n as [|n IH]; intros a acc Ha Hle.
  - rewrite drop_ge by lia. simpl. now rewrite app_nil_r.
  - cbn [seq key_values_loop].
    destruct (lookup_lt_is_Some_2 dps a ltac:(lia)) as [d Hd].
    destruct (lookup_lt_is_Some_2 vals a ltac:(lia)) as [v Hv].
    rewrite Hd, Hv, IH by lia.
    rewrite (drop_S dps d a Hd), (drop_S vals v a Hv).
    cbn [zip_with]. now rewrite <- app_assoc.
Qed.

Lemma key_values_loop_short (dps vals : list pyval) n a acc :
  (a + n = length dps)%nat -> (a <= length vals < length dps)%nat ->
  key_values_loop dps vals (seq a n) acc = Raise IndexError.
Proof.
  revert a acc. induction n as [|n IH]; intros a acc Ha Hlt; [lia|].
  cbn [seq key_values_loop].
  destruct (lookup_lt_is_Some_2 dps a ltac:(lia)) as [d Hd]. rewrite Hd.
  destruct (vals !! a) as [v|] eqn:Hv; [|reflexivity].
  apply lookup_lt_Some in Hv. apply IH; lia.
Qed.

Lemma key_datapoints_values_ok (dps vals : list pyval) :
  (length dps <= length vals)%nat ->
  key_datapoints_values dps vals = Ok (zip_with descriptor dps vals).
Proof.
  intros H. unfold key_datapoints_values.
  now rewrite key_values_loop_ok by lia.
Qed.

Lemma key_datapoints_values_short (dps vals : list pyval) :
  (length vals < length dps)%nat ->
  key_datapoints_values dps vals = Raise IndexError.
Proof.
  intros H. unfold key_datapoints_values.
  apply key_values_loop_short; lia.
Qed.

Lemma descriptors_lookup (dps vals : list pyval) i d v :
  dps !! i = Some d -> vals !! i = Some v ->
  zip_with descriptor dps vals !! i = Some (descriptor d v).
Proof. intros Hd Hv. rewrite lookup_zip_with, Hd. simpl. now rewrite Hv. Qed.

Lemma descriptors_length (dps vals : list pyval) :
  (length dps <= length vals)%nat ->
  length (zip_with descriptor dps vals) = length dps.
Proof. intros H. rewrite length_zip_with. lia. Qed.

Lemma descriptors_take (dps vals : list pyval) :
  zip_with descriptor dps (take (length dps) vals) = zip_with descriptor dps vals.
Proof.
  revert vals. induction dps as [|d dps IH]; intros [|v vals]; simpl; try reflexivity.
  now rewrite IH.
Qed.

(** ** Encoding the user ids *)

Lemma tohex_each_ints (ids : list pyval) :
  forallb isinstance_int ids = true ->
  exists hs, tohex_each ids = Ok hs /\ length hs = length ids.
Proof.
  induction ids as [|[| v | | |] ids IH]; cbn [forallb isinstance_int andb];
    try discriminate.
  - exists []. split; reflexivity.
  - intros H. destruct (IH H) as (hs & Hhs & Hlen).
    cbn [tohex_each]. rewrite tohex_63, Hhs.
    eexists. split; [reflexivity|]. simpl. lia.
Qed.

Lemma tohex_each_inv (ids : list pyval) hs :
  tohex_each ids = Ok hs ->
  forallb isinstance_int ids = true /\ length hs = length ids.
Proof.
  revert hs. induction ids as [|val ids IH]; intros hs; cbn [tohex_each].
  - intros [= <-]. split; reflexivity.
  - destruct val; try discriminate.
    rewrite tohex_63. destruct (tohex_each ids) as [hs'|] eqn:E; [|discriminate].
    intros [= <-]. destruct (IH hs' eq_refl) as [H1 H2].
    split; [assumption | simpl; lia].
Qed.

(** ** What a call does before the network, and when it gets that far *)

Lemma well_formed_prepare (k : call) :
  well_formed k = true <-> exists hs payload, prepare k = Ok (hs, payload).
Proof.
  split.
  - unfold well_formed. intros H. apply andb_prop in H as [Hu Hk].
    destruct k as [u d|u dl|u d a|u dl vl|u d s|u dl vl];
      cbn [call_userId] in Hu; destruct u as [| | |ids|]; try discriminate Hu;
      cbn [int_list] in Hu;
      destruct (tohex_each_ints ids Hu) as (hs & Hhs & _);
      repeat match goal with
        | H : _ && _ = true |- _ => apply andb_prop in H as [? ?]
        | H : isinstance_int ?v = true |- _ => destruct v; try discriminate H; clear H
        | H : isinstance_str ?v = true |- _ => destruct v; try discriminate H; clear H
        | H : isinstance_list ?v = true |- _ => destruct v; try discriminate H; clear H
        | H : covers ?a ?b = true |- _ =>
            destruct a; try discriminate H; destruct b; try discriminate H;
            cbn [covers] in H; apply Nat.leb_le in H
        end;
      cbn [prepare expect_list expect_int expect_str and_then];
      rewrite Hhs; cbn [and_then];
      try (rewrite key_datapoints_values_ok by assumption; cbn [and_then]);
      eauto.
  - intros (hs & payload & H). unfold well_formed.
    destruct k as [u d|u dl|u d a|u dl vl|u d s|u dl vl];
      cbn [prepare call_userId] in *;
      destruct u as [| | |ids|]; try discriminate H;
      cbn [expect_list and_then int_list] in *;
      repeat match type of H with
        | and_then (expect_int ?v) _ = _ => is_var v; destruct v; try discriminate H
        | and_then (expect_str ?v) _ = _ => is_var v; destruct v; try discriminate H
        | and_then (expect_list ?v) _ = _ => is_var v; destruct v; try discriminate H
        | _ => progress cbn [expect_list expect_int expect_str and_then] in H
        end;
      destruct (tohex_each ids) as [hs'|] eqn:E; try discriminate H;
      apply tohex_each_inv in E as [-> _]; cbn [and_then] in H;
      try reflexivity.
    all: cbn [covers andb]; apply Nat.leb_le;
      match goal with |- (length ?a <= length ?b)%nat =>
        destruct (Nat.le_gt_cases (length a) (length b)) as [Hle|Hgt];
        [assumption|]
      end;
      rewrite key_datapoints_values_short in H by assumption; discriminate H.
Qed.

Lemma prepare_length (k : call) ids hs payload :
  call_userId k = VList ids -> prepare k = Ok (hs, payload) ->
  length hs = length ids.
Proof.
  intros Hu H.
  destruct k as [u d|u dl|u d a|u dl vl|u d s|u dl vl];
    cbn [prepare call_userId] in *; subst u;
    cbn [expect_list and_then] in H;
    repeat match type of H with
      | and_then (expect_int ?v) _ = _ => is_var v; destruct v; try discriminate H
      | and_then (expect_str ?v) _ = _ => is_var v; destruct v; try discriminate H
      | and_then (expect_list ?v) _ = _ => is_var v; destruct v; try discriminate H
      | _ => progress cbn [expect_list expect_int expect_str and_then] in H
      end;
    destruct (tohex_each ids) as [hs'|] eqn:E; try discriminate H;
    apply tohex_each_inv in E as [_ E]; cbn [and_then] in H;
    try (destruct (key_datapoints_values _ _); try discriminate H; cbn [and_then] in H);
    injection H as <- _; exact E.
Qed.

(** ** The calls on the network *)

Lemma requests_in_snoc_post tr rq :
  requests_in (tr ++ [EvPost rq]) = requests_in tr ++ [rq].
Proof. unfold requests_in. now rewrite omap_app. Qed.

Lemma requests_in_snoc_print tr line :
  requests_in (tr ++ [EvPrint line]) = requests_in tr.
Proof. unfold requests_in. rewrite omap_app. simpl. now rewrite app_nil_r. Qed.

Lemma requests_in_snoc_sleep tr ms :
  requests_in (tr ++ [EvSleep ms]) = requests_in tr.
Proof. unfold requests_in. rewrite omap_app. simpl. now rewrite app_nil_r. Qed.

Section CallFacts.

Context {World : Type}.
Variable requests_post : Request -> World -> option Response * World.
Variable json_dumps : pyval -> string.

Local Abbreviation run_call := (run_call requests_post json_dumps).
Local Abbreviation post_each := (post_each requests_post json_dumps).
Local Abbreviation get_headers_with_token := (get_headers_with_token requests_post).
Local Abbreviation responsive := (responsive requests_post).
Local Abbreviation assignment_request := (assignment_request json_dumps).

Lemma bind_ret {A B} (a : A) (k : A -> @M World B) st : bind (ret a) k st = k a st.
Proof. reflexivity. Qed.

Lemma bind_raise {A B} e (k : A -> @M World B) st :
  bind (raise e) k st = (Raise e, st).
Proof. reflexivity. Qed.

Lemma bind_lift {A B} (r : result A) (k : A -> @M World B) st :
  bind (lift r) k st =
  match r with Ok a => k a st | Raise e => (Raise e, st) end.
Proof. destruct r; reflexivity. Qed.

Ltac step_asserts :=
  repeat match goal with
    | |- context [assert_int ?v] => is_var v; destruct v
    | |- context [assert_str ?v] => is_var v; destruct v
    | |- context [assert_list ?v] => is_var v; destruct v
    | _ => progress cbn [assert_int assert_str assert_list
                         expect_list expect_int expect_str and_then]
    | _ => rewrite bind_ret
    | _ => rewrite bind_raise
    end.

(** Every method is: prepare, log in, post to each user. *)
Lemma run_call_prepare c k st :
  run_call c k st =
  match prepare k with
  | Ok (hs, payload) =>
      bind (get_headers_with_token c)
           (fun headers => post_each c (call_url k) headers payload hs) st
  | Raise e => (Raise e, st)
  end.
Proof.
  destruct k as [u d|u dl|u d a|u dl vl|u d s|u dl vl];
    cbn [run_call prepare call_url];
    unfold assign_event_to_user, assign_events_to_user,
      assign_number_attribute, assign_number_attributes,
      assign_string_attribute, assign_string_attributes;
    step_asserts; try reflexivity;
    rewrite bind_lift;
    (destruct (tohex_each _) as [hs|e]; cbn [and_then]; [|reflexivity]);
    try reflexivity;
    rewrite bind_lift;
    (destruct (key_datapoints_values _ _) as [kdv|e]; cbn [and_then]);
    reflexivity.
Qed.

Lemma get_headers_answered c st r w :
  requests_post (login_request c) (world st) = (Some r, w) ->
  get_headers_with_token c st =
  (Ok (auth_headers c (token_value (headers_get r "X-Auth-Token"))),
   mkState w (trace st ++ [EvPost (login_request c)])).
Proof.
  intros H. unfold get_headers_with_token, bind, post. now rewrite H.
Qed.

Lemma get_headers_failed c st w :
  requests_post (login_request c) (world st) = (None, w) ->
  get_headers_with_token c st =
  (Raise RequestException, mkState w (trace st ++ [EvPost (login_request c)])).
Proof.
  intros H. unfold get_headers_with_token, bind, post. now rewrite H.
Qed.

(** On a responsive network the loop runs to its end and posts once per
    user id, in order. *)
Lemma post_each_responsive c url headers payload hs st :
  responsive ->
  exists st',
    post_each c url headers payload hs st = (Ok tt, st') /\
    requests_in (trace st') =
      requests_in (trace st) ++ map (assignment_request c url headers payload) hs.
Proof.
  intros Hnet. revert st. induction hs as [|i hs IH]; intros st.
  - exists st. split; [reflexivity|]. simpl. now rewrite app_nil_r.
  - cbn [post_each]. unfold bind at 1. unfold post.
    destruct (requests_post (assignment_request c url headers payload i) (world st))
      as [[r|] w] eqn:E.
    + unfold bind, print, sleep, log. cbn [world trace].
      match goal with |- context [post_each c url headers payload hs ?s] =>
        destruct (IH s) as (st' & Hrun & Htr) end.
      exists st'. split; [exact Hrun|].
      rewrite Htr. cbn [trace].
      rewrite requests_in_snoc_sleep, requests_in_snoc_print, requests_in_snoc_post.
      rewrite <- app_assoc. reflexivity.
    + exfalso. apply (Hnet (assignment_request c url headers payload i) (world st)).
      now rewrite E.
Qed.

(** A call that prepares its requests makes them all on a responsive
    network, with the header map made from the login response. *)
Lemma run_call_requests_login c k hs payload st r w :
  requests_post (login_request c) (world st) = (Some r, w) ->
  responsive -> prepare k = Ok (hs, payload) ->
  exists st',
    run_call c k st = (Ok tt, st') /\
    requests_in (trace st') =
      requests_in (trace st) ++
      login_request c ::
      map (assignment_request c (call_url k)
             (auth_headers c (token_value (headers_get r "X-Auth-Token"))) payload) hs.
Proof.
  intros E Hnet Hprep. rewrite run_call_prepare, Hprep. unfold bind.
  rewrite (get_headers_answered c st r w E).
  set (h := auth_headers c (token_value (headers_get r "X-Auth-Token"))).
  set (st1 := mkState w (trace st ++ [EvPost (login_request c)])).
  destruct (post_each_responsive c (call_url k) h payload hs st1 Hnet)
    as (st' & Hrun & Htr).
  exists st'. split; [exact Hrun|].
  rewrite Htr. subst st1. cbn [trace].
  rewrite requests_in_snoc_post, <- app_assoc. reflexivity.
Qed.

Lemma run_call_requests c k hs payload st :
  responsive -> prepare k = Ok (hs, payload) ->
  exists headers st',
    run_call c k st = (Ok tt, st') /\
    requests_in (trace st') =
      requests_in (trace st) ++
      login_request c :: map (assignment_request c (call_url k) headers payload) hs.
Proof.
  intros Hnet Hprep.
  destruct (requests_post (login_request c) (world st)) as [[r|] w] eqn:E.
  - destruct (run_call_requests_login c k hs payload st r w E Hnet Hprep)
      as (st' & Hrun & Htr).
    eauto.
  - exfalso. apply (Hnet (login_request c) (world st)). now rewrite E.
Qed.

(** The login request is none of the assignment requests. *)
Lemma assignment_request_not_login c url headers payload i :
  assignment_request c url headers payload i <> login_request c.
Proof. intros E. apply (f_equal rq_headers) in E. discriminate E. Qed.

(** A call that fails to prepare leaves the world as it was. *)
Lemma run_call_raise c k e st :
  prepare k = Raise e -> run_call c k st = (Raise e, st).
Proof. intros H. now rewrite run_call_prepare, H. Qed.

Lemma prepare_plural numeric ids dps vals :
  prepare (plural_attribute_call numeric (VList ids) (VList dps) (VList vals)) =
  and_then (tohex_each ids) (fun hs =>
  and_then (key_datapoints_values dps vals) (fun kdv =>
  Ok (hs, VDict [("body", VList kdv)]))).
Proof. destruct numeric; reflexivity. Qed.

(** A plural attribute call with a value for each datapoint. *)
Lemma plural_call_requests numeric c ids dps vals st :
  forallb isinstance_int ids = true ->
  (length dps <= length vals)%nat ->
  responsive ->
  let k := plural_attribute_call numeric (VList ids) (VList dps) (VList vals) in
  exists headers hs st',
    length hs = length ids /\
    run_call c k st = (Ok tt, st') /\
    requests_in (trace st') =
      requests_in (trace st) ++
      login_request c ::
      map (assignment_request c (call_url k) headers
             (VDict [("body", VList (zip_with descriptor dps vals))])) hs.
Proof.
  intros Hids Hlen Hnet k.
  destruct (tohex_each_ints ids Hids) as (hs & Hhs & Hl).
  assert (prepare k = Ok (hs, VDict [("body", VList (zip_with descriptor dps vals))]))
    as Hprep.
  { subst k. rewrite prepare_plural, Hhs. cbn [and_then].
    now rewrite key_datapoints_values_ok by assumption. }
  destruct (run_call_requests c k hs _ st Hnet Hprep) as (h & st' & Hrun & Htr).
  exists h, hs, st'. auto.
Qed.

(** A plural attribute call with too few values. *)
Lemma plural_call_short numeric c u dps vals st :
  (length vals < length dps)%nat ->
  let k := plural_attribute_call numeric u (VList dps) (VList vals) in
  (exists e, run_call c k st = (Raise e, st)) /\
  (int_list u = true -> run_call c k st = (Raise IndexError, st)).
Proof.
  intros Hlen k.
  assert (forall ids, u = VList ids ->
            prepare k = and_then (tohex_each ids) (fun _ => Raise IndexError)) as Hp.
  { intros ids ->. subst k. rewrite prepare_plural.
    destruct (tohex_each ids); cbn [and_then]; [|reflexivity].
    now rewrite key_datapoints_values_short by assumption. }
  split.
  - destruct u as [| | |ids|];
      try (exists AssertionError; apply run_call_raise; subst k;
           destruct numeric; reflexivity).
    specialize (Hp ids eq_refl).
    destruct (tohex_each ids) as [hs|e]; cbn [and_then] in Hp;
      eexists; apply run_call_raise; exact Hp.
  - intros Hu. destruct u as [| | |ids|]; try discriminate Hu.
    cbn [int_list] in Hu. specialize (Hp ids eq_refl).
    destruct (tohex_each_ints ids Hu) as (hs & Hhs & _).
    rewrite Hhs in Hp. now apply run_call_raise.
Qed.

End CallFacts.

Lemma pairs_positionally_descriptors (dps vals : list pyval) :
  (length dps <= length vals)%nat ->
  pairs_positionally dps vals (zip_with descriptor dps vals).
Proof.
  intros Hlen. split; [now apply descriptors_length|].
  intros i d Hd.
  destruct (lookup_lt_is_Some_2 vals i) as [v Hv].
  { apply lookup_lt_Some in Hd. lia. }
  exists v. split; [exact Hv|]. now apply descriptors_lookup.
Qed.

Lemma auth_headers_keys c token :
  dom (auth_headers c token) =
  ({[ "accpet"; "X-Auth-Token"; "Content-Type" ]} : gset string).
Proof.
  unfold auth_headers. rewrite !dom_insert_L, dom_empty_L. set_solver.
Qed.

Lemma auth_headers_token c token :
  auth_headers c token !! "X-Auth-Token" = Some token.
Proof.
  unfold auth_headers.
  rewrite lookup_insert_ne by discriminate. apply lookup_insert_eq.
Qed.

Lemma auth_headers_accpet c token :
  auth_headers c token !! "accpet" = Some (VStr (response_content_type c)).
Proof.
  unfold auth_headers.
  rewrite !lookup_insert_ne by discriminate. apply lookup_insert_eq.
Qed.

Lemma auth_headers_no_Accept c token : auth_headers c token !! "Accept" = None.
Proof.
  unfold auth_headers.
  rewrite !lookup_insert_ne by discriminate. apply lookup_empty.
Qed.

(** * The claims of the specification *)

(** ** The identifier encoding *)

(** C2. For every [value] in [[0, 2^63)], [tohex value 63] is the lowercase
    hexadecimal representation of [(value + 2^63) mod 2^63] padded on the
    left with [0] to 16 characters; on this domain that is the
    representation of [value] itself, and reading it back gives [value].
    In particular 0 and 1 encode as [0000000000000000] and
    [0000000000000001]. *)
Theorem tohex_is_padded_hex_of_value (value : Z) :
  0 <= value < 2 ^ 63 ->
  tohex (VInt value) 63 = Ok (encodeUserId_spec value 63) /\
  encodeUserId_spec value 63 = lpad0 16 (lower_hex value) /\
  hex_value (encodeUserId_spec value 63) = value /\
  tohex (VInt 0) 63 = Ok "0000000000000000" /\
  tohex (VInt 1) 63 = Ok "0000000000000001".
Proof.
  intros H.
  assert (encodeUserId_spec value 63 = lpad0 16 (lower_hex value)) as Hid.
  { unfold encodeUserId_spec.
    replace ((value + 2 ^ 63) mod 2 ^ 63) with value; [reflexivity|].
    rewrite <- Z.shiftl_1_l, wrap_mod by lia. now rewrite Z.mod_small. }
  repeat split.
  - apply tohex_encodeUserId_spec. lia.
  - exact Hid.
  - rewrite Hid, lpad0_lower_hex by lia. apply hex_value_fixed16. lia.
Qed.

Lemma tohex_is_padded_hex_of_value_witness :
  tohex (VInt 255) 63 = Ok (encodeUserId_spec 255 63) /\
  encodeUserId_spec 255 63 = lpad0 16 (lower_hex 255) /\
  hex_value (encodeUserId_spec 255 63) = 255 /\
  tohex (VInt 0) 63 = Ok "0000000000000000" /\
  tohex (VInt 1) 63 = Ok "0000000000000001".
Proof. apply (tohex_is_padded_hex_of_value 255). lia. Defined.

(** C3, as the specification states it, fails at -1 and at 2^63: both lie
    outside [[0, 2^63)], and [tohex] returns exactly their wrapped 63-bit
    encodings. *)
Lemma tohex_wraps_minus_one_and_2_63 :
  tohex (VInt (-1)) 63 = Ok (wrap63_encoding (-1)) /\
  tohex (VInt (-1)) 63 = Ok "7fffffffffffffff" /\
  tohex (VInt (2 ^ 63)) 63 = Ok (wrap63_encoding (2 ^ 63)) /\
  tohex (VInt (2 ^ 63)) 63 = Ok "0000000000000000".
Proof. repeat split; vm_compute; reflexivity. Qed.

(** C3 (amended). [tohex] does wrap: for every integer, in the range or
    not, the result is the 16-digit encoding of its low 63 bits, so two
    integers that differ by 2^63 get the same encoding. *)
Theorem tohex_wraps_every_integer (value : Z) :
  tohex (VInt value) 63 = Ok (wrap63_encoding value) /\
  tohex (VInt (value + 2 ^ 63)) 63 = tohex (VInt value) 63.
Proof.
  unfold wrap63_encoding. rewrite Z.land_ones by lia.
  rewrite !tohex_63. split; [reflexivity|].
  replace (value + 2 ^ 63) with (value + 1 * 2 ^ 63) by lia.
  now rewrite Z_mod_plus_full.
Qed.

(** C8. On [[0, 2^63)], [tohex . 63] is injective, and its result is a
    string of exactly 16 characters, each a lowercase hexadecimal digit. *)
Theorem tohex_injective_16_lower_hex (v1 v2 : Z) :
  0 <= v1 < 2 ^ 63 -> 0 <= v2 < 2 ^ 63 ->
  (tohex (VInt v1) 63 = tohex (VInt v2) 63 -> v1 = v2) /\
  exists s, tohex (VInt v1) 63 = Ok s /\
            String.length s = 16%nat /\
            Str.forallb is_lower_hex s = true.
Proof.
  intros H1 H2. rewrite !tohex_63, !Z.mod_small by lia. split.
  - intros E.
    apply (f_equal (fun r => match r with Ok s => hex_value s | Raise _ => 0 end)) in E.
    cbv beta iota in E. now rewrite !hex_value_fixed16 in E by lia.
  - eexists. split; [reflexivity|]. split.
    + apply hex_fixed_length.
    + apply hex_fixed_lower.
Qed.

Lemma tohex_injective_16_lower_hex_witness :
  (tohex (VInt 1) 63 = tohex (VInt 2) 63 -> 1 = 2) /\
  exists s, tohex (VInt 1) 63 = Ok s /\
            String.length s = 16%nat /\
            Str.forallb is_lower_hex s = true.
Proof. apply (tohex_injective_16_lower_hex 1 2); lia. Defined.

(** ** Construction *)

(** C9. The constructor checks the type of each of its five arguments
    (strings, and an integer for [cmPartnerId]).  If one check fails it
    raises [AssertionError], the exception of the [assert isinstance]
    statements; if all pass it returns the client holding the five values.
    Either way the world is as it was: nothing is sent. *)
Theorem init_validates_types {World : Type}
    (username password cmPartnerId content_type response_content_type : pyval)
    (st : @state World) :
  let types_ok :=
    isinstance_str username && isinstance_str password &&
    isinstance_int cmPartnerId && isinstance_str content_type &&
    isinstance_str response_content_type in
  let out :=
    init username password cmPartnerId content_type response_content_type st in
  out.2 = st /\
  (types_ok = false -> out.1 = Raise AssertionError) /\
  (types_ok = true ->
   exists u p k ct rct,
     username = VStr u /\ password = VStr p /\ cmPartnerId = VInt k /\
     content_type = VStr ct /\ response_content_type = VStr rct /\
     out.1 = Ok (mkController u p k ct rct)).
Proof.
  destruct username, password, cmPartnerId, content_type, response_content_type;
    cbn; (split; [reflexivity|]); (split; [try reflexivity; discriminate|]);
    try discriminate.
  intros _. repeat eexists.
Qed.

Lemma init_validates_types_witness :
  (init_default (VStr "user@example.com") (VStr "secret") idle).1 = Ok client /\
  (init (VStr "user@example.com") (VStr "secret") (VStr "1")
        (VStr "application/json") (VStr "*/*") idle).1 = Raise AssertionError /\
  (init (VStr "user@example.com") (VStr "secret") (VStr "1")
        (VStr "application/json") (VStr "*/*") idle).2 = idle.
Proof.
  split; [|split].
  - destruct (init_validates_types (VStr "user@example.com") (VStr "secret")
                (VInt 1) (VStr "application/json") (VStr "*/*") idle)
      as (_ & _ & H).
    destruct (H eq_refl) as (u & p & k & ct & rct & [= <-] & [= <-] & [= <-] &
                             [= <-] & [= <-] & E).
    exact E.
  - apply (init_validates_types (VStr "user@example.com") (VStr "secret")
             (VStr "1") (VStr "application/json") (VStr "*/*") idle).
    reflexivity.
  - apply (init_validates_types (VStr "user@example.com") (VStr "secret")
             (VStr "1") (VStr "application/json") (VStr "*/*") idle).
Defined.

(** ** Authentication and the assignment calls *)

Section Claims.

Context {World : Type}.
Variable requests_post : Request -> World -> option Response * World.
Variable json_dumps : pyval -> string.

Local Abbreviation run_call := (run_call requests_post json_dumps).
Local Abbreviation get_headers_with_token := (get_headers_with_token requests_post).
Local Abbreviation responsive := (responsive requests_post).
Local Abbreviation assignment_request := (assignment_request json_dumps).

(** C5 (amended). A plural attribute call whose two lists differ in length
    is not validated.  With more values than datapoints no error is raised:
    the call makes its requests, the payload pairing each datapoint with
    the value at the same position.  With fewer values the call raises
    [IndexError] and leaves the world as it was. *)
Theorem mismatched_lengths_not_validated (numeric : bool)
    (c : DatapointAssignmentController) (ids dps vals : list pyval) (st : state) :
  length dps <> length vals ->
  forallb isinstance_int ids = true ->
  responsive ->
  let k := plural_attribute_call numeric (VList ids) (VList dps) (VList vals) in
  ((length dps < length vals)%nat ->
   exists kdv headers hs st',
     pairs_positionally dps vals kdv /\
     length hs = length ids /\
     run_call c k st = (Ok tt, st') /\
     requests_in (trace st') =
       requests_in (trace st) ++
       login_request c ::
       map (assignment_request c (call_url k) headers (VDict [("body", VList kdv)])) hs) /\
  ((length vals < length dps)%nat ->
   run_call c k st = (Raise IndexError, st)).
Proof.
  intros Hne Hids Hnet k. split; intros Hlen.
  - destruct (plural_call_requests requests_post json_dumps numeric c ids dps vals st
                Hids ltac:(lia) Hnet) as (headers & hs & st' & Hl & Hrun & Htr).
    exists (zip_with descriptor dps vals), headers, hs, st'.
    split; [apply pairs_positionally_descriptors; lia|]. auto.
  - apply (plural_call_short requests_post json_dumps numeric c (VList ids) dps vals st Hlen).
    exact Hids.
Qed.

(** C7. A plural attribute call with lists of equal length posts the
    payload whose descriptor list has, at every index [i], the descriptor
    [{"id": datapointsList[i], "value": values[i]}]. *)
Theorem equal_lengths_pair_by_index (numeric : bool)
    (c : DatapointAssignmentController) (ids dps vals : list pyval) (st : state) :
  length dps = length vals ->
  forallb isinstance_int ids = true ->
  responsive ->
  let k := plural_attribute_call numeric (VList ids) (VList dps) (VList vals) in
  exists kdv headers hs st',
    key_datapoints_values dps vals = Ok kdv /\
    length kdv = length dps /\
    (forall i d v, dps !! i = Some d -> vals !! i = Some v ->
       kdv !! i = Some (VDict [("id", d); ("value", v)])) /\
    length hs = length ids /\
    run_call c k st = (Ok tt, st') /\
    requests_in (trace st') =
      requests_in (trace st) ++
      login_request c ::
      map (assignment_request c (call_url k) headers (VDict [("body", VList kdv)])) hs.
Proof.
  intros Hlen Hids Hnet k.
  destruct (plural_call_requests requests_post json_dumps numeric c ids dps vals st
              Hids ltac:(lia) Hnet) as (headers & hs & st' & Hl & Hrun & Htr).
  exists (zip_with descriptor dps vals), headers, hs, st'.
  split; [apply key_datapoints_values_ok; lia|].
  split; [apply descriptors_length; lia|].
  split; [intros i d v; apply descriptors_lookup|]. auto.
Qed.

(** C10. In a plural attribute call with fewer values than datapoints,
    the call ends in an exception with the world as it was: no login and no
    request; with integer user ids the exception is the [IndexError] of
    the payload loop.  With more values than datapoints the payload has
    exactly one descriptor per datapoint, and the call does what it does
    when the extra values are cut off. *)
Theorem short_values_fail_long_values_ignored (numeric : bool)
    (c : DatapointAssignmentController) (u : pyval) (dps vals : list pyval)
    (st : state) :
  let k := plural_attribute_call numeric u (VList dps) (VList vals) in
  ((length vals < length dps)%nat ->
   (exists e, run_call c k st = (Raise e, st)) /\
   (int_list u = true -> run_call c k st = (Raise IndexError, st))) /\
  ((length dps < length vals)%nat ->
   exists kdv,
     key_datapoints_values dps vals = Ok kdv /\
     pairs_positionally dps vals kdv /\
     run_call c k st =
       run_call c (plural_attribute_call numeric u (VList dps)
                     (VList (take (length dps) vals))) st /\
     (int_list u = true -> responsive ->
      exists headers hs st',
        run_call c k st = (Ok tt, st') /\
        requests_in (trace st') =
          requests_in (trace st) ++
          login_request c ::
          map (assignment_request c (call_url k) headers
                 (VDict [("body", VList kdv)])) hs)).
Proof.
  intros k. split; intros Hlen.
  - apply (plural_call_short requests_post json_dumps numeric c u dps vals st Hlen).
  - exists (zip_with descriptor dps vals).
    split; [apply key_datapoints_values_ok; lia|].
    split; [apply pairs_positionally_descriptors; lia|]. split.
    + rewrite !run_call_prepare. subst k.
      replace (call_url (plural_attribute_call numeric u (VList dps)
                           (VList (take (length dps) vals))))
        with (call_url (plural_attribute_call numeric u (VList dps) (VList vals)))
        by (destruct numeric; reflexivity).
      destruct u as [| | |ids|]; try (destruct numeric; reflexivity).
      rewrite !prepare_plural.
      rewrite !key_datapoints_values_ok by (rewrite ?length_take; lia).
      now rewrite descriptors_take.
    + intros Hu Hnet. destruct u as [| | |ids|]; try discriminate Hu.
      destruct (plural_call_requests requests_post json_dumps numeric c ids dps vals st
                  Hu ltac:(lia) Hnet) as (headers & hs & st' & Hl & Hrun & Htr).
      exists headers, hs, st'. auto.
Qed.

End Claims.

(** C4 fails on the code: whenever [get_headers_with_token] returns, the
    keys of the header map are [accpet], [X-Auth-Token] and [Content-Type].
    The accept type sits under the misspelt [accpet]; there is no
    [Accept] key. *)
Theorem header_keys_spell_accpet {World : Type}
    (requests_post : Request -> World -> option Response * World)
    (c : DatapointAssignmentController) (st st' : state)
    (headers : gmap string pyval) :
  get_headers_with_token requests_post c st = (Ok headers, st') ->
  dom headers = ({[ "accpet"; "X-Auth-Token"; "Content-Type" ]} : gset string) /\
  headers !! "Accept" = None /\
  headers !! "accpet" = Some (VStr (response_content_type c)) /\
  headers !! "Content-Type" = Some (VStr (content_type c)).
Proof.
  destruct (requests_post (login_request c) (world st)) as [[r|] w] eqn:E.
  - rewrite (get_headers_answered requests_post c st r w E). intros [= <- _].
    split; [apply auth_headers_keys|].
    split; [apply auth_headers_no_Accept|].
    split; [apply auth_headers_accpet|].
    unfold auth_headers. apply lookup_insert_eq.
  - rewrite (get_headers_failed requests_post c st w E). discriminate.
Qed.

Lemma header_keys_spell_accpet_witness :
  dom (auth_headers client (VStr "t0k3n")) =
    ({[ "accpet"; "X-Auth-Token"; "Content-Type" ]} : gset string) /\
  auth_headers client (VStr "t0k3n") !! "Accept" = None /\
  auth_headers client (VStr "t0k3n") !! "accpet" = Some (VStr "*/*") /\
  auth_headers client (VStr "t0k3n") !! "Content-Type" = Some (VStr "application/json").
Proof.
  apply (header_keys_spell_accpet (service response_with_token) client idle
           (mkState tt [EvPost (login_request client)])).
  reflexivity.
Defined.

(** ** The claims on concrete calls *)

(** The scenario of the specification: user ids 1 and 2, datapoint 42. *)
Example single_event_scenario :
  let out := run_call (service response_with_token) json_text client
               (AssignEventToUser (VList [VInt 1; VInt 2]) (VInt 42)) idle in
  out.1 = Ok tt /\
  map rq_url (requests_in (trace out.2)) =
    ["https://dmp-api.cloudtechnologies.dev/login?email=user@example.com&password=secret";
     "https://dmp-api.cloudtechnologies.dev/event?cmPartnerId=1&userId=0000000000000001";
     "https://dmp-api.cloudtechnologies.dev/event?cmPartnerId=1&userId=0000000000000002"] /\
  map rq_data (requests_in (trace out.2)) =
    [None;
     Some (json_text (VDict [("body", VDict [("id", VInt 42)])]));
     Some (json_text (VDict [("body", VDict [("id", VInt 42)])]))] /\
  omap (fun ev => match ev with EvSleep ms => Some ms | _ => None end) (trace out.2) =
    [800; 800] /\
  omap (fun ev => match ev with EvPrint l => Some l | _ => None end) (trace out.2) =
    ["0000000000000001 : <Response [200]>"; "0000000000000002 : <Response [200]>"].
Proof. vm_compute. repeat split. Qed.

(** C1, as the specification states it, fails for a plural attribute call
    with fewer values than datapoints: one user id, yet no login and no
    request. *)
Lemma short_string_values_send_nothing :
  let out := run_call (service response_with_token) json_text client
               (AssignStringAttributes (VList [VInt 1]) (VList [VInt 5; VInt 6])
                  (VList [VStr "a"])) idle in
  out.1 = Raise IndexError /\ requests_in (trace out.2) = [] /\ trace out.2 = [].
Proof. vm_compute. repeat split. Qed.

(** C5, as the specification states it, fails when the value list is the
    shorter one: the call raises. *)
Lemma short_number_values_raise :
  run_call (service response_with_token) json_text client
    (AssignNumberAttributes (VList [VInt 1]) (VList [VInt 5; VInt 6])
       (VList [VInt 10])) idle
  = (Raise IndexError, idle).
Proof. vm_compute. reflexivity. Qed.

Lemma mismatched_lengths_not_validated_witness :
  let k := plural_attribute_call true (VList [VInt 1]) (VList [VInt 5])
             (VList [VInt 10; VInt 20]) in
  (exists kdv headers hs st',
     pairs_positionally [VInt 5] [VInt 10; VInt 20] kdv /\
     length hs = 1%nat /\
     run_call (service response_with_token) json_text client k idle = (Ok tt, st') /\
     requests_in (trace st') =
       requests_in (trace idle) ++
       login_request client ::
       map (assignment_request json_text client (call_url k) headers
              (VDict [("body", VList kdv)])) hs) /\
  run_call (service response_with_token) json_text client
    (plural_attribute_call false (VList [VInt 1]) (VList [VInt 5; VInt 6])
       (VList [VStr "a"])) idle
  = (Raise IndexError, idle).
Proof.
  split.
  - apply (mismatched_lengths_not_validated (service response_with_token) json_text
             true client [VInt 1] [VInt 5] [VInt 10; VInt 20] idle).
    + simpl. lia.
    + reflexivity.
    + intros rq w. simpl. discriminate.
    + simpl. lia.
  - apply (mismatched_lengths_not_validated (service response_with_token) json_text
             false client [VInt 1] [VInt 5; VInt 6] [VStr "a"] idle).
    + simpl. lia.
    + reflexivity.
    + intros rq w. simpl. discriminate.
    + simpl. lia.
Defined.

Lemma equal_lengths_pair_by_index_witness :
  let k := plural_attribute_call false (VList [VInt 1]) (VList [VInt 5; VInt 6])
             (VList [VStr "a"; VStr "b"]) in
  exists kdv headers hs st',
    key_datapoints_values [VInt 5; VInt 6] [VStr "a"; VStr "b"] = Ok kdv /\
    length kdv = 2%nat /\
    (forall i d v, [VInt 5; VInt 6] !! i = Some d -> [VStr "a"; VStr "b"] !! i = Some v ->
       kdv !! i = Some (VDict [("id", d); ("value", v)])) /\
    length hs = 1%nat /\
    run_call (service response_with_token) json_text client k idle = (Ok tt, st') /\
    requests_in (trace st') =
      requests_in (trace idle) ++
      login_request client ::
      map (assignment_request json_text client (call_url k) headers
             (VDict [("body", VList kdv)])) hs.
Proof.
  apply (equal_lengths_pair_by_index (service response_with_token) json_text
           false client [VInt 1] [VInt 5; VInt 6] [VStr "a"; VStr "b"] idle).
  - reflexivity.
  - reflexivity.
  - intros rq w. simpl. discriminate.
Defined.

Lemma short_values_fail_long_values_ignored_witness :
  run_call (service response_with_token) json_text client
    (plural_attribute_call true (VList [VInt 1]) (VList [VInt 5; VInt 6])
       (VList [VInt 10])) idle
  = (Raise IndexError, idle) /\
  exists kdv,
    key_datapoints_values [VInt 5] [VInt 10; VInt 20] = Ok kdv /\
    pairs_positionally [VInt 5] [VInt 10; VInt 20] kdv.
Proof.
  split.
  - apply (short_values_fail_long_values_ignored (service response_with_token)
             json_text true client (VList [VInt 1]) [VInt 5; VInt 6] [VInt 10] idle).
    + simpl. lia.
    + reflexivity.
  - destruct (proj2 (short_values_fail_long_values_ignored
                       (service response_with_token) json_text true client
                       (VList [VInt 1]) [VInt 5] [VInt 10; VInt 20] idle))
      as (kdv & Hk & Hp & _).
    + simpl. lia.
    + exists kdv. split; [exact Hk | exact Hp].
Defined.

(** * Further properties of the code *)

(** ** [tohex] at every width *)

Lemma str_append_cons c (s t : string) : String c s +:+ t = String c (s +:+ t).
Proof. reflexivity. Qed.

Lemma str_append_nil_r (s : string) : s +:+ EmptyString = s.
Proof.
  induction s as [|c s IH]; [reflexivity|].
  rewrite str_append_cons. now f_equal.
Qed.

Lemma str_append_cancel_l (p s t : string) : p +:+ s = p +:+ t -> s = t.
Proof. apply (inj (String.app p)). Qed.

Lemma str_length_append (s t : string) :
  String.length (s +:+ t) = (String.length s + String.length t)%nat.
Proof.
  induction s as [|c s IH]; [reflexivity|].
  rewrite str_append_cons. cbn [String.length]. now rewrite IH.
Qed.

Lemma str_forallb_append p (s t : string) :
  Str.forallb p (s +:+ t) = Str.forallb p s && Str.forallb p t.
Proof.
  induction s as [|c s IH]; [reflexivity|].
  rewrite str_append_cons. cbn [Str.forallb]. rewrite IH. now rewrite andb_assoc.
Qed.

Lemma str_length_repeat c n : String.length (Str.repeat c n) = n.
Proof. induction n as [|n IH]; simpl; [reflexivity | now rewrite IH]. Qed.

Lemma zeros_lower_hex n : Str.forallb is_lower_hex (Str.repeat "0"%char n) = true.
Proof. induction n as [|n IH]; simpl; [reflexivity | exact IH]. Qed.

(** Zeros in front do not change the number read. *)
Lemma hex_value_zeros n s : hex_value (Str.repeat "0"%char n +:+ s) = hex_value s.
Proof.
  unfold hex_value. induction n as [|n IH]; [reflexivity|].
  cbn [Str.repeat]. rewrite str_append_cons. cbn [hex_value_acc].
  change (16 * 0 + hex_value_digit "0") with 0. exact IH.
Qed.

Lemma hex_value_lower_hex m : 0 <= m -> hex_value (lower_hex m) = m.
Proof.
  intros H. unfold hex_value, lower_hex. rewrite hex_value_fixed.
  pose proof (hex_len_bound m H). rewrite Z.mod_small by lia. lia.
Qed.

Lemma lower_hex_length m : String.length (lower_hex m) = hex_len m.
Proof. apply hex_fixed_length. Qed.

Lemma hex_len_le_16 m : 0 <= m < 2 ^ 64 -> (hex_len m <= 16)%nat.
Proof.
  intros H. unfold hex_len.
  destruct (Z.eq_dec m 0) as [->|Hm]; [vm_compute; lia|].
  assert (Z.log2 m < 64) by (apply Z.log2_lt_pow2; lia).
  pose proof (Z.log2_nonneg m).
  assert (Z.log2 m / 4 < 16) by (apply Z.div_lt_upper_bound; lia).
  pose proof (Z.div_pos (Z.log2 m) 4). lia.
Qed.

Lemma wrapped_range v bits :
  0 <= bits -> 0 <= (v + 2 ^ bits) mod 2 ^ bits < 2 ^ bits.
Proof. intros H. apply Z.mod_pos_bound. apply Z.pow_pos_nonneg; lia. Qed.

Lemma wrapped_mod v bits : (v + 2 ^ bits) mod 2 ^ bits = v mod 2 ^ bits.
Proof.
  replace (v + 2 ^ bits) with (v + 1 * 2 ^ bits) by lia. apply Z_mod_plus_full.
Qed.

(** [tohex] can be read back: for every integer and every non-negative
    width, the digits returned are those of [value mod 2^nbits]. *)
Theorem tohex_reads_back_modulo (value nbits : Z) :
  0 <= nbits ->
  exists s, tohex (VInt value) nbits = Ok s /\
            hex_value s = value mod 2 ^ nbits.
Proof.
  intros H. rewrite tohex_encodeUserId_spec by assumption.
  eexists. split; [reflexivity|].
  unfold encodeUserId_spec, lpad0. rewrite hex_value_zeros.
  rewrite hex_value_lower_hex by apply wrapped_range, H.
  apply wrapped_mod.
Qed.

Lemma tohex_reads_back_modulo_witness :
  exists s, tohex (VInt (-1)) 8 = Ok s /\ hex_value s = (-1) mod 2 ^ 8.
Proof. apply (tohex_reads_back_modulo (-1) 8). lia. Defined.

(** The result of [tohex] is made of lowercase hexadecimal digits and is
    never shorter than 16 characters; up to a width of 64 bits it is
    exactly 16 characters long. *)
Theorem tohex_at_least_16_digits (value nbits : Z) :
  0 <= nbits ->
  exists s, tohex (VInt value) nbits = Ok s /\
            Str.forallb is_lower_hex s = true /\
            (16 <= String.length s)%nat /\
            (nbits <= 64 -> String.length s = 16%nat).
Proof.
  intros H. rewrite tohex_encodeUserId_spec by assumption.
  eexists. split; [reflexivity|].
  unfold encodeUserId_spec, lpad0.
  set (m := (value + 2 ^ nbits) mod 2 ^ nbits).
  rewrite str_forallb_append, str_length_append, str_length_repeat,
    lower_hex_length, zeros_lower_hex.
  split; [apply hex_fixed_lower|]. split; [lia|].
  intros Hb. assert (hex_len m <= 16)%nat; [|lia].
  apply hex_len_le_16. pose proof (wrapped_range value nbits H). fold m in H0.
  assert (2 ^ nbits <= 2 ^ 64) by (apply Z.pow_le_mono_r; lia). lia.
Qed.

Lemma tohex_at_least_16_digits_witness :
  exists s, tohex (VInt (2 ^ 64)) 65 = Ok s /\
            Str.forallb is_lower_hex s = true /\
            (16 <= String.length s)%nat /\
            (65 <= 64 -> String.length s = 16%nat).
Proof. apply (tohex_at_least_16_digits (2 ^ 64) 65). lia. Defined.

(** Past 64 bits the result can be longer than 16 characters. *)
Example tohex_65_bits : tohex (VInt (2 ^ 64)) 65 = Ok "10000000000000000".
Proof. vm_compute. reflexivity. Qed.

(** ** Calls that end before the login *)

Lemma types_ok_false_prepare (k : call) :
  types_ok k = false -> prepare k = Raise AssertionError.
Proof.
  intros H.
  destruct k as [u d|u dl|u d a|u dl vl|u d s|u dl vl];
    destruct u; try reflexivity;
    repeat match goal with
      | v : pyval |- _ => destruct v; try reflexivity
      end;
    discriminate H.
Qed.

Lemma tohex_each_non_int (ids : list pyval) :
  forallb isinstance_int ids = false -> tohex_each ids = Raise TypeError.
Proof.
  induction ids as [|val ids IH]; [discriminate|].
  destruct val; try reflexivity.
  cbn [forallb isinstance_int andb]. intros H.
  cbn [tohex_each]. now rewrite tohex_63, IH.
Qed.

Lemma non_int_prepare (k : call) :
  types_ok k = true -> int_list (call_userId k) = false ->
  prepare k = Raise TypeError.
Proof.
  intros Ht Hu. unfold types_ok in Ht. apply andb_prop in Ht as [Hl Ht].
  destruct k as [u d|u dl|u d a|u dl vl|u d s|u dl vl];
    cbn [call_userId] in Hl, Hu; destruct u as [| | |ids|]; try discriminate Hl;
    clear Hl; cbn [int_list] in Hu; apply tohex_each_non_int in Hu;
    repeat match goal with
      | H : _ && _ = true |- _ => apply andb_prop in H as [? ?]
      | H : isinstance_int ?v = true |- _ =>
          is_var v; destruct v; try discriminate H; clear H
      | H : isinstance_str ?v = true |- _ =>
          is_var v; destruct v; try discriminate H; clear H
      | H : isinstance_list ?v = true |- _ =>
          is_var v; destruct v; try discriminate H; clear H
      end;
    cbn [prepare expect_list expect_int expect_str and_then];
    now rewrite Hu.
Qed.

Lemma ill_formed_prepare (k : call) :
  well_formed k = false -> exists e, prepare k = Raise e.
Proof.
  intros H. destruct (prepare k) as [[hs payload]|e] eqn:E; [|eauto].
  assert (well_formed k = true) by (apply well_formed_prepare; eauto).
  congruence.
Qed.

Section EarlyExits.

Context {World : Type}.
Variable requests_post : Request -> World -> option Response * World.
Variable json_dumps : pyval -> string.

Local Abbreviation run_call := (run_call requests_post json_dumps).
Local Abbreviation responsive := (responsive requests_post).

(** A call with an argument of the wrong type raises [AssertionError]
    and leaves the world as it was, for each of the six methods. *)
Theorem wrong_argument_type_raises_AssertionError
    (c : DatapointAssignmentController) (k : call) (st : state) :
  types_ok k = false -> run_call c k st = (Raise AssertionError, st).
Proof. intros H. now apply run_call_raise, types_ok_false_prepare. Qed.

(** A user id that is not an integer, wherever it stands in the list,
    makes the call raise [TypeError] before the login: all ids are encoded
    first, so nothing is sent for the ids in front of it either, and a
    value list that is too short is not reached. *)
Theorem non_integer_user_id_sends_nothing
    (c : DatapointAssignmentController) (k : call) (st : state) :
  types_ok k = true -> int_list (call_userId k) = false ->
  run_call c k st = (Raise TypeError, st).
Proof. intros Ht Hu. now apply run_call_raise, non_int_prepare. Qed.

(** On a network without transport failures, a call returns normally
    exactly when it is well formed; a call that is not leaves the world as
    it was. *)
Theorem call_returns_iff_well_formed
    (c : DatapointAssignmentController) (k : call) (st : state) :
  responsive ->
  ((run_call c k st).1 = Ok tt <-> well_formed k = true) /\
  (well_formed k = false -> (run_call c k st).2 = st).
Proof.
  intros Hnet. destruct (well_formed k) eqn:Hwf.
  - split; [|discriminate]. split; [reflexivity|]. intros _.
    destruct (proj1 (well_formed_prepare k) Hwf) as (hs & payload & Hprep).
    destruct (run_call_requests requests_post json_dumps c k hs payload st Hnet Hprep)
      as (h & st' & Hrun & _).
    now rewrite Hrun.
  - destruct (ill_formed_prepare k Hwf) as [e He].
    rewrite (run_call_raise requests_post json_dumps c k e st He).
    split; [|reflexivity]. split; discriminate.
Qed.

End EarlyExits.

Lemma wrong_argument_type_raises_AssertionError_witness :
  run_call (service response_with_token) json_text client
    (AssignEventToUser (VStr "1") (VInt 42)) idle
  = (Raise AssertionError, idle) /\
  run_call (service response_with_token) json_text client
    (AssignNumberAttribute (VList [VInt 1]) (VInt 42) (VStr "7")) idle
  = (Raise AssertionError, idle).
Proof.
  split; apply wrong_argument_type_raises_AssertionError; reflexivity.
Defined.

Lemma non_integer_user_id_sends_nothing_witness :
  run_call (service response_with_token) json_text client
    (AssignNumberAttributes (VList [VInt 1; VStr "2"]) (VList [VInt 5; VInt 6])
       (VList [VInt 10])) idle
  = (Raise TypeError, idle).
Proof. apply non_integer_user_id_sends_nothing; reflexivity. Defined.

Lemma call_returns_iff_well_formed_witness :
  (run_call (service response_with_token) json_text client
     (AssignEventsToUser (VList [VInt 1]) (VList [VInt 5; VStr "six"])) idle).1
  = Ok tt /\
  (run_call (service response_with_token) json_text client
     (AssignEventsToUser (VList [VNone]) (VList [VInt 5])) idle).2
  = idle.
Proof.
  split.
  - apply (call_returns_iff_well_formed (service response_with_token) json_text).
    + intros rq w. simpl. discriminate.
    + reflexivity.
  - apply (call_returns_iff_well_formed (service response_with_token) json_text).
    + intros rq w. simpl. discriminate.
    + reflexivity.
Defined.

(** ** The URLs and the printed line *)

Lemma format_call_url (k : call) (a b : string) :
  format (call_url k) [a; b] =
  "https://dmp-api.cloudtechnologies.dev/" +:+ endpoint k +:+
  "?cmPartnerId=" +:+ a +:+ "&userId=" +:+ b.
Proof.
  assert (forall x, format (call_url k) [a; x] =
            "https://dmp-api.cloudtechnologies.dev/" +:+ endpoint k +:+
            "?cmPartnerId=" +:+ a +:+ "&userId=" +:+ (x +:+ EmptyString)) as E
    by (intros x; destruct k; reflexivity).
  now rewrite E, str_append_nil_r.
Qed.

Lemma login_request_url (c : DatapointAssignmentController) :
  login_request c =
  mkRequest ("https://dmp-api.cloudtechnologies.dev/login?email=" +:+ username c +:+
             "&password=" +:+ password c) None None.
Proof.
  unfold login_request. f_equal.
  rewrite <- (str_append_nil_r (password c)) at 2. reflexivity.
Qed.

Lemma format_printed_line (i x : string) :
  format "{} : {}" [i; x] = i +:+ " : " +:+ x.
Proof. rewrite <- (str_append_nil_r x) at 2. reflexivity. Qed.

(** ** The payload loops *)

Lemma key_datapoints_loop_map (dps acc : list pyval) :
  key_datapoints_loop dps acc = acc ++ map (fun d => VDict [("id", d)]) dps.
Proof.
  revert acc. induction dps as [|d dps IH]; intros acc; cbn [key_datapoints_loop map].
  - now rewrite app_nil_r.
  - rewrite IH, <- app_assoc. reflexivity.
Qed.

Lemma tohex_each_of_ints (vs : list Z) :
  tohex_each (map VInt vs) = Ok (map (fun v => hex_fixed 16 (v mod 2 ^ 63)) vs).
Proof.
  induction vs as [|v vs IH]; [reflexivity|].
  cbn [map tohex_each]. now rewrite tohex_63, IH.
Qed.

Lemma prepare_ids (k : call) ids hs payload :
  call_userId k = VList ids -> prepare k = Ok (hs, payload) ->
  tohex_each ids = Ok hs.
Proof.
  intros Hu H.
  destruct k as [u d|u dl|u d a|u dl vl|u d s|u dl vl];
    cbn [prepare call_userId] in *; subst u;
    cbn [expect_list and_then] in H;
    repeat match type of H with
      | and_then (expect_int ?v) _ = _ => is_var v; destruct v; try discriminate H
      | and_then (expect_str ?v) _ = _ => is_var v; destruct v; try discriminate H
      | and_then (expect_list ?v) _ = _ => is_var v; destruct v; try discriminate H
      | _ => progress cbn [expect_list expect_int expect_str and_then] in H
      end;
    destruct (tohex_each ids) as [hs'|]; try discriminate H; cbn [and_then] in H;
    try (destruct (key_datapoints_values _ _); try discriminate H; cbn [and_then] in H);
    injection H as <- _; reflexivity.
Qed.

Lemma well_formed_user_list (k : call) :
  well_formed k = true -> exists ids, call_userId k = VList ids.
Proof.
  unfold well_formed. intros H. apply andb_prop in H as [Hu _].
  destruct (call_userId k); try discriminate Hu. eauto.
Qed.

Lemma singular_prepare (k : call) payload :
  singular_payload k = Some payload -> well_formed k = true ->
  exists hs, prepare k = Ok (hs, payload).
Proof.
  intros Hp Hwf.
  destruct (proj1 (well_formed_prepare k) Hwf) as (hs & payload' & Hprep).
  exists hs. rewrite Hprep. do 2 f_equal.
  destruct k as [u d|u dl|u d a|u dl vl|u d s|u dl vl];
    try discriminate Hp;
    cbn [prepare singular_payload] in *;
    destruct u as [| | |ids|]; try discriminate Hprep;
    cbn [expect_list and_then] in Hprep;
    repeat match goal with
      | v : pyval |- _ => destruct v; try discriminate Hp; try discriminate Hprep
      end;
    cbn [expect_int expect_str and_then] in Hprep;
    destruct (tohex_each ids); try discriminate Hprep; cbn [and_then] in Hprep;
    congruence.
Qed.

(** ** The calls that reach the network *)

(** One turn of the loop. *)
Lemma post_each_cons {World : Type}
    (requests_post : Request -> World -> option Response * World)
    (json_dumps : pyval -> string) c url headers payload i hs (st : state) :
  post_each requests_post json_dumps c url headers payload (i :: hs) st =
  match requests_post (assignment_request json_dumps c url headers payload i)
          (world st) with
  | (Some r, w) =>
      post_each requests_post json_dumps c url headers payload hs
        (mkState w
           (((trace st ++
              [EvPost (assignment_request json_dumps c url headers payload i)]) ++
             [EvPrint (format "{} : {}" [i; repr_response r])]) ++ [EvSleep 800]))
  | (None, w) =>
      (Raise RequestException,
       mkState w
         (trace st ++
          [EvPost (assignment_request json_dumps c url headers payload i)]))
  end.
Proof.
  cbn [post_each]. unfold bind, post, print, sleep, log.
  destruct (requests_post (assignment_request json_dumps c url headers payload i)
              (world st)) as [[r|] w]; reflexivity.
Qed.

Lemma rq_url_assignment_request (json_dumps : pyval -> string) c url headers payload i :
  rq_url (assignment_request json_dumps c url headers payload i) =
  format url [Str.of_int (cmPartnerId c); i].
Proof. reflexivity. Qed.

Section OnTheNetwork.

Context {World : Type}.
Variable requests_post : Request -> World -> option Response * World.
Variable json_dumps : pyval -> string.

Local Abbreviation run_call := (run_call requests_post json_dumps).
Local Abbreviation post_each := (post_each requests_post json_dumps).
Local Abbreviation get_headers_with_token := (get_headers_with_token requests_post).
Local Abbreviation responsive := (responsive requests_post).
Local Abbreviation assignment_request := (assignment_request json_dumps).

(** The URLs of a call, in order: the login URL with the user name and
    the password as they are, then for each user id, in the order of the
    list and with repetitions kept, the URL of the method with the partner
    id in decimal and the 16 hexadecimal digits of the id modulo 2^63. *)
Theorem request_urls_follow_user_ids
    (c : DatapointAssignmentController) (k : call) (vs : list Z) (st : state) :
  call_userId k = VList (map VInt vs) -> well_formed k = true -> responsive ->
  exists st',
    run_call c k st = (Ok tt, st') /\
    map rq_url (requests_in (trace st')) =
      map rq_url (requests_in (trace st)) ++
      ("https://dmp-api.cloudtechnologies.dev/login?email=" +:+ username c +:+
       "&password=" +:+ password c) ::
      map (fun v =>
             "https://dmp-api.cloudtechnologies.dev/" +:+ endpoint k +:+
             "?cmPartnerId=" +:+ Str.of_int (cmPartnerId c) +:+
             "&userId=" +:+ hex_fixed 16 (v mod 2 ^ 63)) vs.
Proof.
  intros Hu Hwf Hnet.
  destruct (proj1 (well_formed_prepare k) Hwf) as (hs & payload & Hprep).
  pose proof (prepare_ids k _ hs payload Hu Hprep) as Hhs.
  rewrite tohex_each_of_ints in Hhs. injection Hhs as <-.
  destruct (run_call_requests requests_post json_dumps c k _ payload st Hnet Hprep)
    as (h & st' & Hrun & Htr).
  exists st'. split; [exact Hrun|].
  rewrite Htr, map_app. cbn [map]. rewrite login_request_url. cbn [rq_url].
  rewrite !map_map. do 2 f_equal.
  apply map_ext. intros v. rewrite rq_url_assignment_request.
  apply format_call_url.
Qed.

(** When the login request itself fails, the call ends in the transport's
    exception right after it: no assignment request is made. *)
Theorem failed_login_ends_the_call
    (c : DatapointAssignmentController) (k : call) (st : state) (w : World) :
  well_formed k = true ->
  requests_post (login_request c) (world st) = (None, w) ->
  run_call c k st =
  (Raise RequestException, mkState w (trace st ++ [EvPost (login_request c)])).
Proof.
  intros Hwf E.
  destruct (proj1 (well_formed_prepare k) Hwf) as (hs & payload & Hprep).
  rewrite run_call_prepare, Hprep. unfold bind.
  now rewrite (get_headers_failed requests_post c st w E).
Qed.

(** A call with an empty list of user ids still logs in, and does nothing
    else: no request, no printed line, no pause. *)
Theorem empty_user_list_still_logs_in
    (c : DatapointAssignmentController) (k : call) (st : state)
    (r : Response) (w : World) :
  call_userId k = VList [] -> well_formed k = true ->
  requests_post (login_request c) (world st) = (Some r, w) ->
  run_call c k st =
  (Ok tt, mkState w (trace st ++ [EvPost (login_request c)])).
Proof.
  intros Hu Hwf E.
  destruct (proj1 (well_formed_prepare k) Hwf) as (hs & payload & Hprep).
  pose proof (prepare_length k [] hs payload Hu Hprep) as Hlen.
  destruct hs; [|discriminate Hlen].
  rewrite run_call_prepare, Hprep. unfold bind.
  now rewrite (get_headers_answered requests_post c st r w E).
Qed.

(** Nothing is kept between calls: two calls in a row log in twice, each
    before its own requests. *)
Theorem each_call_logs_in_again
    (c : DatapointAssignmentController) (k1 k2 : call) (st : state) :
  well_formed k1 = true -> well_formed k2 = true -> responsive ->
  exists ids1 hs1 headers1 payload1 ids2 hs2 headers2 payload2 st',
    call_userId k1 = VList ids1 /\ length hs1 = length ids1 /\
    call_userId k2 = VList ids2 /\ length hs2 = length ids2 /\
    bind (run_call c k1) (fun _ => run_call c k2) st = (Ok tt, st') /\
    requests_in (trace st') =
      requests_in (trace st) ++
      (login_request c ::
       map (assignment_request c (call_url k1) headers1 payload1) hs1) ++
      (login_request c ::
       map (assignment_request c (call_url k2) headers2 payload2) hs2).
Proof.
  intros Hwf1 Hwf2 Hnet.
  destruct (proj1 (well_formed_prepare k1) Hwf1) as (hs1 & p1 & Hprep1).
  destruct (proj1 (well_formed_prepare k2) Hwf2) as (hs2 & p2 & Hprep2).
  destruct (well_formed_user_list k1 Hwf1) as (ids1 & Hu1).
  destruct (well_formed_user_list k2 Hwf2) as (ids2 & Hu2).
  destruct (run_call_requests requests_post json_dumps c k1 hs1 p1 st Hnet Hprep1)
    as (h1 & st1 & Hrun1 & Htr1).
  destruct (run_call_requests requests_post json_dumps c k2 hs2 p2 st1 Hnet Hprep2)
    as (h2 & st2 & Hrun2 & Htr2).
  exists ids1, hs1, h1, p1, ids2, hs2, h2, p2, st2.
  split; [exact Hu1|]. split; [exact (prepare_length k1 ids1 hs1 p1 Hu1 Hprep1)|].
  split; [exact Hu2|]. split; [exact (prepare_length k2 ids2 hs2 p2 Hu2 Hprep2)|].
  split.
  - unfold bind. now rewrite Hrun1.
  - rewrite Htr2, Htr1, <- app_assoc. reflexivity.
Qed.

End OnTheNetwork.

(** ** Headers, user ids and the two plural attribute methods *)

Lemma auth_headers_content_type c token :
  auth_headers c token !! "Content-Type" = Some (VStr (content_type c)).
Proof. unfold auth_headers. apply lookup_insert_eq. Qed.

Lemma auth_headers_size c token : size (auth_headers c token) = 3%nat.
Proof.
  unfold auth_headers.
  rewrite !map_size_insert_None, map_size_empty; [reflexivity|..];
    rewrite ?lookup_insert_ne by discriminate; apply lookup_empty.
Qed.

Lemma congruent_encodings (vs vs' : list Z) :
  Forall2 (fun a b => a mod 2 ^ 63 = b mod 2 ^ 63) vs vs' ->
  tohex_each (map VInt vs) = tohex_each (map VInt vs').
Proof.
  intros H. rewrite !tohex_each_of_ints. f_equal.
  induction H as [|a b vs vs' E _ IH]; [reflexivity|].
  cbn [map]. now rewrite E, IH.
Qed.

Lemma prepare_with_userId (k : call) (ids ids' : list pyval) :
  tohex_each ids = tohex_each ids' ->
  prepare (with_userId k (VList ids)) = prepare (with_userId k (VList ids')).
Proof.
  intros E.
  destruct k as [u d|u dl|u d a|u dl vl|u d s|u dl vl];
    cbn [with_userId prepare expect_list and_then]; now rewrite E.
Qed.

Lemma call_url_with_userId (k : call) (u : pyval) :
  call_url (with_userId k u) = call_url k.
Proof. destruct k; reflexivity. Qed.

Section HeadersAndIds.

Context {World : Type}.
Variable requests_post : Request -> World -> option Response * World.
Variable json_dumps : pyval -> string.

Local Abbreviation run_call := (run_call requests_post json_dumps).
Local Abbreviation get_headers_with_token := (get_headers_with_token requests_post).
Local Abbreviation responsive := (responsive requests_post).
Local Abbreviation assignment_request := (assignment_request json_dumps).

(** [get_headers_with_token] makes exactly one request: a POST, without
    headers and without a body, to the login URL that carries the user name
    and the password as they are.  It then returns a map of three entries,
    or ends in the transport's exception. *)
Theorem get_headers_posts_the_credentials_once
    (c : DatapointAssignmentController) (st : state) :
  trace (get_headers_with_token c st).2 =
    trace st ++
    [EvPost (mkRequest
               ("https://dmp-api.cloudtechnologies.dev/login?email=" +:+ username c +:+
                "&password=" +:+ password c) None None)] /\
  ((exists headers,
      (get_headers_with_token c st).1 = Ok headers /\ size headers = 3%nat /\
      headers !! "Content-Type" = Some (VStr (content_type c))) \/
   (get_headers_with_token c st).1 = Raise RequestException).
Proof.
  rewrite <- login_request_url.
  destruct (requests_post (login_request c) (world st)) as [[r|] w] eqn:E.
  - rewrite (get_headers_answered requests_post c st r w E).
    split; [reflexivity|]. left. eexists. split; [reflexivity|].
    split; [apply auth_headers_size | apply auth_headers_content_type].
  - rewrite (get_headers_failed requests_post c st w E).
    split; [reflexivity|]. right. reflexivity.
Qed.

(** [assign_number_attributes] and [assign_string_attributes] do the
    same with the same arguments, the URL apart: neither looks at the type
    of the values.  They fail alike, with the world as it was, and when
    they succeed they send the same payload for the same encoded user ids
    with the same header map. *)
Theorem plural_attribute_methods_differ_in_url_only
    (c : DatapointAssignmentController) (u dl vl : pyval) (st : state) :
  responsive ->
  let number := AssignNumberAttributes u dl vl in
  let text := AssignStringAttributes u dl vl in
  (well_formed number = false ->
   run_call c number st = run_call c text st /\ (run_call c number st).2 = st) /\
  (well_formed number = true ->
   exists hs headers payload st1 st2,
     run_call c number st = (Ok tt, st1) /\
     run_call c text st = (Ok tt, st2) /\
     requests_in (trace st1) =
       requests_in (trace st) ++
       login_request c ::
       map (assignment_request c (call_url number) headers payload) hs /\
     requests_in (trace st2) =
       requests_in (trace st) ++
       login_request c ::
       map (assignment_request c (call_url text) headers payload) hs).
Proof.
  intros Hnet number text.
  assert (prepare text = prepare number) as Hsame by reflexivity.
  split; intros Hwf.
  - destruct (ill_formed_prepare number Hwf) as [e He].
    rewrite (run_call_raise requests_post json_dumps c number e st He).
    rewrite (run_call_raise requests_post json_dumps c text e st);
      [split; reflexivity|].
    now rewrite Hsame.
  - destruct (proj1 (well_formed_prepare number) Hwf) as (hs & payload & Hprep).
    destruct (requests_post (login_request c) (world st)) as [[r|] w] eqn:E.
    + destruct (run_call_requests_login requests_post json_dumps
                  c number hs payload st r w E Hnet Hprep) as (st1 & Hrun1 & Htr1).
      rewrite <- Hsame in Hprep.
      destruct (run_call_requests_login requests_post json_dumps
                  c text hs payload st r w E Hnet Hprep) as (st2 & Hrun2 & Htr2).
      eexists hs, _, payload, st1, st2. eauto.
    + exfalso. apply (Hnet (login_request c) (world st)). now rewrite E.
Qed.

(** User ids outside [[0, 2^63)] are not refused: a call on user ids
    that agree modulo 2^63 with those of another call does exactly what that
    call does. *)
Theorem congruent_user_ids_give_the_same_call
    (c : DatapointAssignmentController) (k : call) (vs vs' : list Z) (st : state) :
  Forall2 (fun a b => a mod 2 ^ 63 = b mod 2 ^ 63) vs vs' ->
  run_call c (with_userId k (VList (map VInt vs))) st =
  run_call c (with_userId k (VList (map VInt vs'))) st.
Proof.
  intros H. rewrite !run_call_prepare, !call_url_with_userId.
  now rewrite (prepare_with_userId k _ _ (congruent_encodings vs vs' H)).
Qed.

(** Two user ids in [[0, 2^63)] never share a request URL: equal URLs
    of one method for one client mean equal ids. *)
Theorem in_range_user_ids_get_distinct_urls
    (c : DatapointAssignmentController) (k : call)
    (headers1 headers2 : gmap string pyval) (payload1 payload2 : pyval)
    (v1 v2 : Z) (h1 h2 : string) :
  0 <= v1 < 2 ^ 63 -> 0 <= v2 < 2 ^ 63 ->
  tohex (VInt v1) 63 = Ok h1 -> tohex (VInt v2) 63 = Ok h2 ->
  rq_url (assignment_request c (call_url k) headers1 payload1 h1) =
  rq_url (assignment_request c (call_url k) headers2 payload2 h2) ->
  v1 = v2.
Proof.
  intros R1 R2 E1 E2 Eurl.
  rewrite tohex_63, Z.mod_small in E1, E2 by lia.
  injection E1 as <-. injection E2 as <-.
  rewrite !rq_url_assignment_request, !format_call_url in Eurl.
  apply (str_append_cancel_l "https://dmp-api.cloudtechnologies.dev/") in Eurl.
  apply (str_append_cancel_l (endpoint k)) in Eurl.
  apply (str_append_cancel_l "?cmPartnerId=") in Eurl.
  apply (str_append_cancel_l (Str.of_int (cmPartnerId c))) in Eurl.
  apply (str_append_cancel_l "&userId=") in Eurl.
  change (hex_fixed 16 v1 = hex_fixed 16 v2) in Eurl.
  apply (f_equal hex_value) in Eurl.
  now rewrite !hex_value_fixed16 in Eurl by lia.
Qed.

End HeadersAndIds.

(** ** The further properties on concrete calls *)

Lemma request_urls_follow_user_ids_witness :
  let k := AssignStringAttribute (VList (map VInt [2; 1; 2])) (VInt 42) (VStr "a") in
  exists st',
    run_call (service response_with_token) json_text client k idle = (Ok tt, st') /\
    map rq_url (requests_in (trace st')) =
      map rq_url (requests_in (trace idle)) ++
      ("https://dmp-api.cloudtechnologies.dev/login?email=" +:+ username client +:+
       "&password=" +:+ password client) ::
      map (fun v =>
             "https://dmp-api.cloudtechnologies.dev/" +:+ endpoint k +:+
             "?cmPartnerId=" +:+ Str.of_int (cmPartnerId client) +:+
             "&userId=" +:+ hex_fixed 16 (v mod 2 ^ 63)) [2; 1; 2].
Proof.
  apply (request_urls_follow_user_ids (service response_with_token) json_text client
           (AssignStringAttribute (VList (map VInt [2; 1; 2])) (VInt 42) (VStr "a"))
           [2; 1; 2] idle).
  - reflexivity.
  - reflexivity.
  - intros rq w. simpl. discriminate.
Defined.

(** With a service that fails from its third request on, the call for
    three user ids makes the login and two requests, the second of which
    fails; the third user id is never tried. *)
Example third_request_fails :
  let out := run_call (service_failing_after 2 response_with_token) json_text
               client (AssignEventToUser (VList [VInt 1; VInt 2; VInt 3]) (VInt 42))
               (mkState 0%nat []) in
  out.1 = Raise RequestException /\
  map rq_url (requests_in (trace out.2)) =
    ["https://dmp-api.cloudtechnologies.dev/login?email=user@example.com&password=secret";
     "https://dmp-api.cloudtechnologies.dev/event?cmPartnerId=1&userId=0000000000000001";
     "https://dmp-api.cloudtechnologies.dev/event?cmPartnerId=1&userId=0000000000000002"].
Proof. vm_compute. repeat split. Qed.

Lemma failed_login_ends_the_call_witness :
  run_call (service_failing_after 0 response_with_token) json_text client
    (AssignEventToUser (VList [VInt 1; VInt 2]) (VInt 42)) (mkState 0%nat [])
  = (Raise RequestException, mkState 1%nat [EvPost (login_request client)]).
Proof.
  apply (failed_login_ends_the_call (service_failing_after 0 response_with_token)
           json_text client
           (AssignEventToUser (VList [VInt 1; VInt 2]) (VInt 42)) (mkState 0%nat [])).
  - reflexivity.
  - reflexivity.
Defined.

Lemma empty_user_list_still_logs_in_witness :
  run_call (service response_with_token) json_text client
    (AssignEventsToUser (VList []) (VList [VInt 5])) idle
  = (Ok tt, mkState tt [EvPost (login_request client)]).
Proof.
  apply (empty_user_list_still_logs_in (service response_with_token) json_text client
           (AssignEventsToUser (VList []) (VList [VInt 5])) idle response_with_token tt).
  - reflexivity.
  - reflexivity.
  - reflexivity.
Defined.

Lemma each_call_logs_in_again_witness :
  let k1 := AssignEventToUser (VList [VInt 1]) (VInt 42) in
  let k2 := AssignNumberAttribute (VList [VInt 1; VInt 2]) (VInt 42) (VInt 7) in
  exists ids1 hs1 headers1 payload1 ids2 hs2 headers2 payload2 st',
    call_userId k1 = VList ids1 /\ length hs1 = length ids1 /\
    call_userId k2 = VList ids2 /\ length hs2 = length ids2 /\
    bind (run_call (service response_with_token) json_text client k1)
         (fun _ => run_call (service response_with_token) json_text client k2) idle
      = (Ok tt, st') /\
    requests_in (trace st') =
      requests_in (trace idle) ++
      (login_request client ::
       map (assignment_request json_text client (call_url k1) headers1 payload1) hs1) ++
      (login_request client ::
       map (assignment_request json_text client (call_url k2) headers2 payload2) hs2).
Proof.
  apply (each_call_logs_in_again (service response_with_token) json_text client
           (AssignEventToUser (VList [VInt 1]) (VInt 42))
           (AssignNumberAttribute (VList [VInt 1; VInt 2]) (VInt 42) (VInt 7)) idle).
  - reflexivity.
  - reflexivity.
  - intros rq w. simpl. discriminate.
Defined.

Lemma plural_attribute_methods_differ_in_url_only_witness :
  (let number := AssignNumberAttributes (VList [VInt 1]) (VList [VInt 5]) (VList [VStr "a"]) in
   let text := AssignStringAttributes (VList [VInt 1]) (VList [VInt 5]) (VList [VStr "a"]) in
   exists hs headers payload st1 st2,
     run_call (service response_with_token) json_text client number idle = (Ok tt, st1) /\
     run_call (service response_with_token) json_text client text idle = (Ok tt, st2) /\
     requests_in (trace st1) =
       requests_in (trace idle) ++
       login_request client ::
       map (assignment_request json_text client (call_url number) headers payload) hs /\
     requests_in (trace st2) =
       requests_in (trace idle) ++
       login_request client ::
       map (assignment_request json_text client (call_url text) headers payload) hs) /\
  run_call (service response_with_token) json_text client
    (AssignNumberAttributes (VList [VInt 1]) (VList [VInt 5; VInt 6]) (VList [VStr "a"])) idle
  = run_call (service response_with_token) json_text client
      (AssignStringAttributes (VList [VInt 1]) (VList [VInt 5; VInt 6]) (VList [VStr "a"])) idle.
Proof.
  split.
  - apply (plural_attribute_methods_differ_in_url_only (service response_with_token)
             json_text client (VList [VInt 1]) (VList [VInt 5]) (VList [VStr "a"]) idle).
    + intros rq w. simpl. discriminate.
    + reflexivity.
  - apply (plural_attribute_methods_differ_in_url_only (service response_with_token)
             json_text client (VList [VInt 1]) (VList [VInt 5; VInt 6])
             (VList [VStr "a"]) idle).
    + intros rq w. simpl. discriminate.
    + reflexivity.
Defined.

Lemma congruent_user_ids_give_the_same_call_witness :
  run_call (service response_with_token) json_text client
    (AssignEventToUser (VList [VInt (-1); VInt (2 ^ 63 + 5)]) (VInt 42)) idle
  = run_call (service response_with_token) json_text client
      (AssignEventToUser (VList [VInt (2 ^ 63 - 1); VInt 5]) (VInt 42)) idle.
Proof.
  apply (congruent_user_ids_give_the_same_call (service response_with_token) json_text
           client (AssignEventToUser VNone (VInt 42))
           [-1; 2 ^ 63 + 5] [2 ^ 63 - 1; 5] idle).
  repeat constructor.
Defined.

Lemma in_range_user_ids_get_distinct_urls_witness : (5 : Z) = 5.
Proof.
  apply (in_range_user_ids_get_distinct_urls json_text client
           (AssignEventToUser (VList [VInt 5]) (VInt 42))
           ∅ ∅ VNone VNone 5 5 "0000000000000005" "0000000000000005").
  - lia.
  - lia.
  - reflexivity.
  - reflexivity.
  - reflexivity.
Defined.

(** * The requests of a call against the source text *)

Lemma assignment_request_spelled (json_dumps : pyval -> string)
    (c : DatapointAssignmentController) (k : call)
    (headers : gmap string pyval) (payload : pyval) (i : string) :
  assignment_request json_dumps c (call_url k) headers payload i =
  expected_request json_dumps c k headers payload i.
Proof.
  unfold assignment_request, expected_request. f_equal. apply format_call_url.
Qed.

Lemma login_request_spelled (c : DatapointAssignmentController) :
  login_request c = expected_login c.
Proof. apply login_request_url. Qed.

Lemma printed_line_spelled (i : string) (r : Response) :
  format "{} : {}" [i; repr_response r] =
  i +:+ " : <Response [" +:+ Str.of_int (status_code r) +:+ "]>".
Proof. rewrite format_printed_line. reflexivity. Qed.

Lemma tohex_each_encodes (ids : list pyval) (hs : list string) :
  tohex_each ids = Ok hs -> encodes ids hs.
Proof.
  revert hs. induction ids as [|val ids IH]; intros hs; cbn [tohex_each].
  - intros [= <-]. constructor.
  - destruct (tohex val 63) as [h|] eqn:E; [|discriminate].
    destruct (tohex_each ids) as [hs'|]; [|discriminate].
    intros [= <-]. constructor; [exact E | now apply IH].
Qed.

Lemma encodes_length (ids : list pyval) (hs : list string) :
  encodes ids hs -> length hs = length ids.
Proof. intros H. symmetry. exact (Forall2_length _ _ _ H). Qed.

Lemma map_const_replicate {A B} (b : B) (f : A -> B) (l : list A) :
  (forall a, f a = b) -> map f l = replicate (length l) b.
Proof.
  intros H. induction l as [|a l IH]; [reflexivity|].
  cbn [map length replicate]. now rewrite H, IH.
Qed.

Section SpelledOut.

Context {World : Type}.
Variable requests_post : Request -> World -> option Response * World.
Variable json_dumps : pyval -> string.

Local Abbreviation run_call := (run_call requests_post json_dumps).
Local Abbreviation get_headers_with_token := (get_headers_with_token requests_post).
Local Abbreviation responsive := (responsive requests_post).
Local Abbreviation expected_request := (expected_request json_dumps).

(** A returned header map tells that the login was answered. *)
Lemma get_headers_returned c st headers st1 :
  get_headers_with_token c st = (Ok headers, st1) ->
  exists r w,
    requests_post (expected_login c) (world st) = (Some r, w) /\
    headers = auth_headers c (token_value (headers_get r "X-Auth-Token")) /\
    st1 = mkState w (trace st ++ [EvPost (expected_login c)]).
Proof.
  rewrite <- login_request_spelled.
  destruct (requests_post (login_request c) (world st)) as [[r|] w] eqn:E.
  - rewrite (get_headers_answered requests_post c st r w E). intros [= <- <-]. eauto.
  - rewrite (get_headers_failed requests_post c st w E). discriminate.
Qed.

(** The loop of a method on a responsive network: every turn is the
    request spelled out, the line with the response the service gave to
    that request, and the pause. *)
Lemma post_each_turns c k headers payload hs st :
  responsive ->
  exists st',
    post_each requests_post json_dumps c (call_url k) headers payload hs st =
      (Ok tt, st') /\
    trace st' =
      trace st ++
      concat (zip_with
                (fun i r => expected_turn (expected_request c k headers payload i) i r)
                hs
                (responses_to requests_post
                   (map (expected_request c k headers payload) hs) (world st))).
Proof.
  intros Hnet. revert st. induction hs as [|i hs IH]; intros st.
  - exists st. split; [reflexivity|]. simpl. now rewrite app_nil_r.
  - rewrite post_each_cons, assignment_request_spelled.
    cbn [map responses_to].
    destruct (requests_post (expected_request c k headers payload i) (world st))
      as [[r|] w] eqn:E.
    + match goal with |- context [post_each _ _ c _ headers payload hs ?s] =>
        destruct (IH s) as (st' & Hrun & Htr) end.
      exists st'. split; [exact Hrun|].
      rewrite Htr. cbn [trace world zip_with concat]. unfold expected_turn at 2.
      rewrite printed_line_spelled, <- !app_assoc. reflexivity.
    + exfalso. apply (Hnet (expected_request c k headers payload i) (world st)).
      now rewrite E.
Qed.

(** The loop of a method on any network: it returns when every request
    was answered, it raises the transport's exception when one was not, and
    it has then made the requests up to and including that one. *)
Lemma post_each_outcome c k headers payload hs st :
  let rqs := map (expected_request c k headers payload) hs in
  let rs := responses_to requests_post rqs (world st) in
  let out := post_each requests_post json_dumps c (call_url k) headers payload hs st in
  (length rs = length hs -> out.1 = Ok tt) /\
  ((length rs < length hs)%nat -> out.1 = Raise RequestException) /\
  requests_in (trace out.2) = requests_in (trace st) ++ take (S (length rs)) rqs.
Proof.
  revert st. induction hs as [|i hs IH]; intros st; cbn zeta.
  - cbn [map responses_to length take]. split; [reflexivity|].
    split; [lia|]. simpl. now rewrite app_nil_r.
  - rewrite post_each_cons, assignment_request_spelled.
    cbn [map responses_to].
    destruct (requests_post (expected_request c k headers payload i) (world st))
      as [[r|] w] eqn:E.
    + match goal with |- context [post_each _ _ c _ headers payload hs ?s] =>
        destruct (IH s) as (Hok & Hfail & Htr) end.
      cbn [world trace] in Hok, Hfail, Htr. cbn [length].
      split; [intros H; apply Hok; lia|].
      split; [intros H; apply Hfail; lia|].
      rewrite Htr.
      rewrite requests_in_snoc_sleep, requests_in_snoc_print, requests_in_snoc_post.
      rewrite <- app_assoc. reflexivity.
    + cbn [length fst snd trace]. split; [discriminate|].
      split; [reflexivity|].
      rewrite requests_in_snoc_post. cbn [take]. now rewrite take_0.
Qed.

(** A call that prepares its requests, on a responsive network, from the
    login on. *)
Lemma run_call_spelled c k ids hs payload st headers st1 :
  call_userId k = VList ids -> prepare k = Ok (hs, payload) ->
  get_headers_with_token c st = (Ok headers, st1) ->
  responsive ->
  exists st',
    encodes ids hs /\
    run_call c k st = (Ok tt, st') /\
    trace st' =
      trace st ++
      EvPost (expected_login c) ::
      concat (zip_with
                (fun i r => expected_turn (expected_request c k headers payload i) i r)
                hs
                (responses_to requests_post
                   (map (expected_request c k headers payload) hs) (world st1))) /\
    requests_in (trace st') =
      requests_in (trace st) ++
      expected_login c :: map (expected_request c k headers payload) hs.
Proof.
  intros Hu Hprep Hlogin Hnet.
  destruct (get_headers_returned c st headers st1 Hlogin) as (r & w & E & -> & ->).
  set (h := auth_headers c (token_value (headers_get r "X-Auth-Token"))) in *.
  pose proof (tohex_each_encodes ids hs (prepare_ids k ids hs payload Hu Hprep)) as Henc.
  rewrite <- login_request_spelled in E.
  destruct (run_call_requests_login requests_post json_dumps c k hs payload st r w
              E Hnet Hprep) as (st' & Hrun & Htr).
  exists st'. split; [exact Henc|]. split; [exact Hrun|]. split.
  - rewrite run_call_prepare, Hprep in Hrun. unfold bind in Hrun.
    rewrite (get_headers_answered requests_post c st r w E) in Hrun. fold h in Hrun.
    destruct (post_each_turns c k h payload hs
                (mkState w (trace st ++ [EvPost (login_request c)])) Hnet)
      as (st2 & Hrun2 & Htr2).
    rewrite Hrun2 in Hrun. injection Hrun as <-.
    rewrite Htr2. cbn [trace world]. rewrite login_request_spelled, <- app_assoc.
    reflexivity.
  - rewrite Htr. fold h. rewrite login_request_spelled. do 2 f_equal.
    apply map_ext. intros i. apply assignment_request_spelled.
Qed.

Lemma responsive_login c st :
  responsive ->
  exists headers st1, get_headers_with_token c st = (Ok headers, st1).
Proof.
  intros Hnet.
  destruct (requests_post (login_request c) (world st)) as [[r|] w] eqn:E.
  - rewrite (get_headers_answered requests_post c st r w E). eauto.
  - exfalso. apply (Hnet (login_request c) (world st)). now rewrite E.
Qed.

Lemma rq_headers_spelled c k headers payload (hs : list string) :
  map rq_headers (map (expected_request c k headers payload) hs) =
  replicate (length hs) (Some headers).
Proof. rewrite map_map. now apply map_const_replicate. Qed.

Lemma rq_data_spelled c k headers payload (hs : list string) :
  map rq_data (map (expected_request c k headers payload) hs) =
  replicate (length hs) (Some (json_dumps payload)).
Proof. rewrite map_map. now apply map_const_replicate. Qed.

(** C1 (amended). For each of the six assignment methods: when the
    arguments have the asserted types, the user ids are integers, a plural
    attribute call has a value for each datapoint, and no HTTP call fails,
    a call with [k] user ids makes exactly one login request followed by
    exactly [k] requests, the [i]-th to the URL of its method with the
    encoding of the [i]-th user id, and all [k] with the header map that
    this one login returned. *)
Theorem well_formed_call_one_login_k_posts
    (c : DatapointAssignmentController) (k : call) (st : state) :
  well_formed k = true -> responsive ->
  one_login_then_one_post_per_user requests_post json_dumps c k st.
Proof.
  intros Hwf Hnet.
  destruct (proj1 (well_formed_prepare k) Hwf) as (hs & payload & Hprep).
  destruct (well_formed_user_list k Hwf) as (ids & Hu).
  destruct (responsive_login c st Hnet) as (headers & st1 & Hlogin).
  destruct (run_call_spelled c k ids hs payload st headers st1 Hu Hprep Hlogin Hnet)
    as (st' & Henc & Hrun & _ & Hreq).
  exists ids, hs, headers, payload, st1.
  split; [exact Hu|]. split; [exact Henc|].
  split; [exact (encodes_length ids hs Henc)|]. split; [exact Hlogin|].
  now rewrite Hrun.
Qed.

(** C6. When the login response has no [X-Auth-Token] header,
    [get_headers_with_token] returns normally, with [None] under
    [X-Auth-Token]; and a well-formed assignment call on a responsive
    network goes on to make all its requests, one per user id, each of them
    carrying that header map with the null token as its [headers]. *)
Theorem missing_token_is_passed_on
    (c : DatapointAssignmentController) (st : state) (r : Response) (w : World) :
  requests_post (expected_login c) (world st) = (Some r, w) ->
  headers_get r "X-Auth-Token" = None ->
  exists headers,
    get_headers_with_token c st =
      (Ok headers, mkState w (trace st ++ [EvPost (expected_login c)])) /\
    headers !! "X-Auth-Token" = Some VNone /\
    forall k, well_formed k = true -> responsive ->
      exists ids hs payload st',
        call_userId k = VList ids /\ encodes ids hs /\
        run_call c k st = (Ok tt, st') /\
        requests_in (trace st') =
          requests_in (trace st) ++
          expected_login c :: map (expected_request c k headers payload) hs /\
        map rq_headers (requests_in (trace st')) =
          map rq_headers (requests_in (trace st)) ++
          None :: replicate (length ids) (Some headers).
Proof.
  intros E Hnone.
  assert (get_headers_with_token c st =
          (Ok (auth_headers c VNone),
           mkState w (trace st ++ [EvPost (expected_login c)]))) as Hlogin.
  { rewrite <- login_request_spelled in *.
    rewrite (get_headers_answered requests_post c st r w E), Hnone. reflexivity. }
  exists (auth_headers c VNone). split; [exact Hlogin|].
  split; [apply auth_headers_token|].
  intros k Hwf Hnet.
  destruct (proj1 (well_formed_prepare k) Hwf) as (hs & payload & Hprep).
  destruct (well_formed_user_list k Hwf) as (ids & Hu).
  destruct (run_call_spelled c k ids hs payload st _ _ Hu Hprep Hlogin Hnet)
    as (st' & Henc & Hrun & _ & Hreq).
  exists ids, hs, payload, st'.
  split; [exact Hu|]. split; [exact Henc|]. split; [exact Hrun|].
  split; [exact Hreq|].
  rewrite Hreq, map_app. cbn [map expected_login rq_headers].
  now rewrite rq_headers_spelled, (encodes_length ids hs Henc).
Qed.

(** The token that the login response carries is the one every request
    of the call is made with, next to the client's content type: each of
    the requests has, as its [headers], the map that holds them. *)
Theorem login_token_is_forwarded
    (c : DatapointAssignmentController) (st : state) (r : Response) (w : World)
    (token : string) :
  requests_post (expected_login c) (world st) = (Some r, w) ->
  headers_get r "X-Auth-Token" = Some token ->
  exists headers,
    get_headers_with_token c st =
      (Ok headers, mkState w (trace st ++ [EvPost (expected_login c)])) /\
    headers !! "X-Auth-Token" = Some (VStr token) /\
    headers !! "Content-Type" = Some (VStr (content_type c)) /\
    forall k, well_formed k = true -> responsive ->
      exists ids hs payload st',
        call_userId k = VList ids /\ encodes ids hs /\
        run_call c k st = (Ok tt, st') /\
        requests_in (trace st') =
          requests_in (trace st) ++
          expected_login c :: map (expected_request c k headers payload) hs /\
        map rq_headers (requests_in (trace st')) =
          map rq_headers (requests_in (trace st)) ++
          None :: replicate (length ids) (Some headers).
Proof.
  intros E Htok.
  assert (get_headers_with_token c st =
          (Ok (auth_headers c (VStr token)),
           mkState w (trace st ++ [EvPost (expected_login c)]))) as Hlogin.
  { rewrite <- login_request_spelled in *.
    rewrite (get_headers_answered requests_post c st r w E), Htok. reflexivity. }
  exists (auth_headers c (VStr token)). split; [exact Hlogin|].
  split; [apply auth_headers_token|].
  split; [apply auth_headers_content_type|].
  intros k Hwf Hnet.
  destruct (proj1 (well_formed_prepare k) Hwf) as (hs & payload & Hprep).
  destruct (well_formed_user_list k Hwf) as (ids & Hu).
  destruct (run_call_spelled c k ids hs payload st _ _ Hu Hprep Hlogin Hnet)
    as (st' & Henc & Hrun & _ & Hreq).
  exists ids, hs, payload, st'.
  split; [exact Hu|]. split; [exact Henc|]. split; [exact Hrun|].
  split; [exact Hreq|].
  rewrite Hreq, map_app. cbn [map expected_login rq_headers].
  now rewrite rq_headers_spelled, (encodes_length ids hs Henc).
Qed.

(** [assign_events_to_user] posts, for every user id, the payload whose
    body lists one [{"id": d}] per element of [datapointsList], in order:
    that payload, serialised, is the [data] of each of the requests.  The
    elements are not checked, and an empty list gives an empty body that is
    posted all the same. *)
Theorem events_payload_lists_each_datapoint
    (c : DatapointAssignmentController) (ids dps : list pyval) (st : state) :
  forallb isinstance_int ids = true -> responsive ->
  let k := AssignEventsToUser (VList ids) (VList dps) in
  let payload := VDict [("body", VList (map (fun d => VDict [("id", d)]) dps))] in
  exists hs headers st1 st',
    encodes ids hs /\
    get_headers_with_token c st = (Ok headers, st1) /\
    run_call c k st = (Ok tt, st') /\
    requests_in (trace st') =
      requests_in (trace st) ++
      expected_login c :: map (expected_request c k headers payload) hs /\
    map rq_data (requests_in (trace st')) =
      map rq_data (requests_in (trace st)) ++
      None :: replicate (length ids) (Some (json_dumps payload)).
Proof.
  intros Hids Hnet k payload.
  destruct (tohex_each_ints ids Hids) as (hs & Hhs & Hl).
  assert (prepare k = Ok (hs, payload)) as Hprep.
  { subst k payload. cbn [prepare expect_list and_then]. rewrite Hhs. cbn [and_then].
    now rewrite key_datapoints_loop_map. }
  destruct (responsive_login c st Hnet) as (headers & st1 & Hlogin).
  destruct (run_call_spelled c k ids hs payload st headers st1 eq_refl Hprep Hlogin Hnet)
    as (st' & Henc & Hrun & _ & Hreq).
  exists hs, headers, st1, st'.
  split; [exact Henc|]. split; [exact Hlogin|]. split; [exact Hrun|].
  split; [exact Hreq|].
  rewrite Hreq, map_app. cbn [map expected_login rq_data].
  now rewrite rq_data_spelled, Hl.
Qed.

(** The three methods that take one datapoint post the same payload for
    every user id: [{"body": {"id": datapoint}}], with ["value"] added by
    the two attribute methods; serialised, it is the [data] of each of the
    requests. *)
Theorem singular_call_payload
    (c : DatapointAssignmentController) (k : call) (payload : pyval) (st : state) :
  singular_payload k = Some payload -> well_formed k = true -> responsive ->
  exists ids hs headers st1 st',
    call_userId k = VList ids /\ encodes ids hs /\
    get_headers_with_token c st = (Ok headers, st1) /\
    run_call c k st = (Ok tt, st') /\
    requests_in (trace st') =
      requests_in (trace st) ++
      expected_login c :: map (expected_request c k headers payload) hs /\
    map rq_data (requests_in (trace st')) =
      map rq_data (requests_in (trace st)) ++
      None :: replicate (length ids) (Some (json_dumps payload)).
Proof.
  intros Hp Hwf Hnet.
  destruct (singular_prepare k payload Hp Hwf) as (hs & Hprep).
  destruct (well_formed_user_list k Hwf) as (ids & Hu).
  destruct (responsive_login c st Hnet) as (headers & st1 & Hlogin).
  destruct (run_call_spelled c k ids hs payload st headers st1 Hu Hprep Hlogin Hnet)
    as (st' & Henc & Hrun & _ & Hreq).
  exists ids, hs, headers, st1, st'.
  split; [exact Hu|]. split; [exact Henc|]. split; [exact Hlogin|].
  split; [exact Hrun|]. split; [exact Hreq|].
  rewrite Hreq, map_app. cbn [map expected_login rq_data].
  now rewrite rq_data_spelled, (encodes_length ids hs Henc).
Qed.

(** After the login, every user id has its turn, in the order of the
    list: the request for its encoding, then the printed line
    ["<id> : <Response [status]>"] with the status of the response that the
    service gave to that very request, then a pause of 0.8 s, the last
    request included. *)
Theorem each_request_is_printed_then_slept_on
    (c : DatapointAssignmentController) (k : call) (st : state) :
  well_formed k = true -> responsive ->
  exists ids hs headers payload st1 st',
    call_userId k = VList ids /\ encodes ids hs /\
    get_headers_with_token c st = (Ok headers, st1) /\
    run_call c k st = (Ok tt, st') /\
    trace st' =
      trace st ++
      EvPost (expected_login c) ::
      concat (zip_with
                (fun i r => expected_turn (expected_request c k headers payload i) i r)
                hs
                (responses_to requests_post
                   (map (expected_request c k headers payload) hs) (world st1))).
Proof.
  intros Hwf Hnet.
  destruct (proj1 (well_formed_prepare k) Hwf) as (hs & payload & Hprep).
  destruct (well_formed_user_list k Hwf) as (ids & Hu).
  destruct (responsive_login c st Hnet) as (headers & st1 & Hlogin).
  destruct (run_call_spelled c k ids hs payload st headers st1 Hu Hprep Hlogin Hnet)
    as (st' & Henc & Hrun & Htr & _).
  exists ids, hs, headers, payload, st1, st'. auto.
Qed.

(** A transport failure is not caught.  Once the login has returned its
    header map, a well-formed call makes its requests in the order of the
    user ids for as long as the service answers: it returns when every
    request was answered, and when one was not it ends in the exception of
    [requests.post], having made the requests up to and including that one
    and none after it. *)
Theorem transport_failure_stops_the_call
    (c : DatapointAssignmentController) (k : call) (st st1 : state)
    (headers : gmap string pyval) :
  well_formed k = true ->
  get_headers_with_token c st = (Ok headers, st1) ->
  exists ids hs payload,
    call_userId k = VList ids /\ encodes ids hs /\
    let rqs := map (expected_request c k headers payload) hs in
    let rs := responses_to requests_post rqs (world st1) in
    (length rs = length hs -> (run_call c k st).1 = Ok tt) /\
    ((length rs < length hs)%nat -> (run_call c k st).1 = Raise RequestException) /\
    requests_in (trace (run_call c k st).2) =
      requests_in (trace st) ++ expected_login c :: take (S (length rs)) rqs.
Proof.
  intros Hwf Hlogin.
  destruct (proj1 (well_formed_prepare k) Hwf) as (hs & payload & Hprep).
  destruct (well_formed_user_list k Hwf) as (ids & Hu).
  pose proof (tohex_each_encodes ids hs (prepare_ids k ids hs payload Hu Hprep)) as Henc.
  exists ids, hs, payload. split; [exact Hu|]. split; [exact Henc|].
  rewrite run_call_prepare, Hprep. unfold bind. rewrite Hlogin.
  destruct (get_headers_returned c st headers st1 Hlogin) as (r & w & _ & _ & ->).
  destruct (post_each_outcome c k headers payload hs
              (mkState w (trace st ++ [EvPost (expected_login c)])))
    as (Hok & Hfail & Htr).
  cbn [world trace] in Hok, Hfail, Htr. cbn [world].
  split; [exact Hok|]. split; [exact Hfail|].
  rewrite Htr, requests_in_snoc_post, <- app_assoc. reflexivity.
Qed.

End SpelledOut.

(** ** The spelled-out requests on concrete calls *)

Lemma well_formed_call_one_login_k_posts_witness :
  one_login_then_one_post_per_user (service response_with_token) json_text client
    (AssignEventToUser (VList [VInt 1; VInt 2]) (VInt 42)) idle.
Proof.
  apply well_formed_call_one_login_k_posts.
  - reflexivity.
  - intros rq w. simpl. discriminate.
Defined.

Lemma missing_token_is_passed_on_witness :
  let k := AssignEventToUser (VList [VInt 1; VInt 2]) (VInt 42) in
  exists headers,
    get_headers_with_token (service response_without_token) client idle =
      (Ok headers, mkState tt [EvPost (expected_login client)]) /\
    headers !! "X-Auth-Token" = Some VNone /\
    exists ids hs payload st',
      call_userId k = VList ids /\ encodes ids hs /\
      run_call (service response_without_token) json_text client k idle = (Ok tt, st') /\
      requests_in (trace st') =
        requests_in (trace idle) ++
        expected_login client ::
        map (expected_request json_text client k headers payload) hs /\
      map rq_headers (requests_in (trace st')) =
        map rq_headers (requests_in (trace idle)) ++
        None :: replicate (length ids) (Some headers).
Proof.
  destruct (missing_token_is_passed_on (service response_without_token) json_text
              client idle response_without_token tt eq_refl eq_refl)
    as (headers & Hrun & Htoken & Hcalls).
  exists headers. split; [exact Hrun|]. split; [exact Htoken|].
  apply Hcalls.
  - reflexivity.
  - intros rq w. simpl. discriminate.
Defined.

(** Without a token in the login response, the two requests of the call
    are made with [None] under [X-Auth-Token]. *)
Example null_token_in_every_request :
  let out := run_call (service response_without_token) json_text client
               (AssignEventToUser (VList [VInt 1; VInt 2]) (VInt 42)) idle in
  out.1 = Ok tt /\
  map (fun rq => match rq_headers rq with
                 | Some h => h !! "X-Auth-Token"
                 | None => None
                 end) (requests_in (trace out.2)) =
    [None; Some VNone; Some VNone].
Proof. vm_compute. split; reflexivity. Qed.

Lemma login_token_is_forwarded_witness :
  let k := AssignEventToUser (VList [VInt 1; VInt 2]) (VInt 42) in
  exists headers,
    get_headers_with_token (service response_with_token) client idle =
      (Ok headers, mkState tt [EvPost (expected_login client)]) /\
    headers !! "X-Auth-Token" = Some (VStr "t0k3n") /\
    headers !! "Content-Type" = Some (VStr "application/json") /\
    exists ids hs payload st',
      call_userId k = VList ids /\ encodes ids hs /\
      run_call (service response_with_token) json_text client k idle = (Ok tt, st') /\
      requests_in (trace st') =
        requests_in (trace idle) ++
        expected_login client ::
        map (expected_request json_text client k headers payload) hs /\
      map rq_headers (requests_in (trace st')) =
        map rq_headers (requests_in (trace idle)) ++
        None :: replicate (length ids) (Some headers).
Proof.
  destruct (login_token_is_forwarded (service response_with_token) json_text
              client idle response_with_token tt "t0k3n" eq_refl eq_refl)
    as (headers & Hrun & Htoken & Hct & Hcalls).
  exists headers. split; [exact Hrun|]. split; [exact Htoken|]. split; [exact Hct|].
  apply Hcalls.
  - reflexivity.
  - intros rq w. simpl. discriminate.
Defined.

Lemma events_payload_lists_each_datapoint_witness :
  let k := AssignEventsToUser (VList [VInt 1; VInt 2]) (VList [VInt 5; VStr "six"]) in
  let payload :=
    VDict [("body", VList [VDict [("id", VInt 5)]; VDict [("id", VStr "six")]])] in
  exists hs headers st1 st',
    encodes [VInt 1; VInt 2] hs /\
    get_headers_with_token (service response_with_token) client idle =
      (Ok headers, st1) /\
    run_call (service response_with_token) json_text client k idle = (Ok tt, st') /\
    requests_in (trace st') =
      requests_in (trace idle) ++
      expected_login client ::
      map (expected_request json_text client k headers payload) hs /\
    map rq_data (requests_in (trace st')) =
      map rq_data (requests_in (trace idle)) ++
      None :: replicate 2 (Some (json_text payload)).
Proof.
  apply (events_payload_lists_each_datapoint (service response_with_token) json_text
           client [VInt 1; VInt 2] [VInt 5; VStr "six"] idle).
  - reflexivity.
  - intros rq w. simpl. discriminate.
Defined.

Lemma singular_call_payload_witness :
  let k := AssignNumberAttribute (VList [VInt 1; VInt 2]) (VInt 42) (VInt 7) in
  let payload := VDict [("body", VDict [("id", VInt 42); ("value", VInt 7)])] in
  exists ids hs headers st1 st',
    call_userId k = VList ids /\ encodes ids hs /\
    get_headers_with_token (service response_with_token) client idle =
      (Ok headers, st1) /\
    run_call (service response_with_token) json_text client k idle = (Ok tt, st') /\
    requests_in (trace st') =
      requests_in (trace idle) ++
      expected_login client ::
      map (expected_request json_text client k headers payload) hs /\
    map rq_data (requests_in (trace st')) =
      map rq_data (requests_in (trace idle)) ++
      None :: replicate (length ids) (Some (json_text payload)).
Proof.
  apply (singular_call_payload (service response_with_token) json_text client
           (AssignNumberAttribute (VList [VInt 1; VInt 2]) (VInt 42) (VInt 7))).
  - reflexivity.
  - reflexivity.
  - intros rq w. simpl. discriminate.
Defined.

Lemma each_request_is_printed_then_slept_on_witness :
  let k := AssignEventToUser (VList [VInt 1; VInt 2]) (VInt 42) in
  let post := service_by_count answers_404_then_200 in
  exists ids hs headers payload st1 st',
    call_userId k = VList ids /\ encodes ids hs /\
    get_headers_with_token post client (mkState 0%nat []) = (Ok headers, st1) /\
    run_call post json_text client k (mkState 0%nat []) = (Ok tt, st') /\
    trace st' =
      [] ++
      EvPost (expected_login client) ::
      concat (zip_with
                (fun i r =>
                   expected_turn (expected_request json_text client k headers payload i)
                     i r)
                hs
                (responses_to post
                   (map (expected_request json_text client k headers payload) hs)
                   (world st1))).
Proof.
  apply (each_request_is_printed_then_slept_on (service_by_count answers_404_then_200)
           json_text client (AssignEventToUser (VList [VInt 1; VInt 2]) (VInt 42))
           (mkState 0%nat [])).
  - reflexivity.
  - intros rq [|[|n]]; simpl; discriminate.
Defined.

(** The printed line shows the status of the response to its own
    request: 404 for the first user id, 200 for the second. *)
Example printed_lines_show_each_status :
  let out := run_call (service_by_count answers_404_then_200) json_text client
               (AssignEventToUser (VList [VInt 1; VInt 2]) (VInt 42))
               (mkState 0%nat []) in
  out.1 = Ok tt /\
  omap (fun ev => match ev with EvPrint l => Some l | _ => None end) (trace out.2) =
    ["0000000000000001 : <Response [404]>"; "0000000000000002 : <Response [200]>"] /\
  omap (fun ev => match ev with EvSleep ms => Some ms | _ => None end) (trace out.2) =
    [800; 800].
Proof. vm_compute. repeat split. Qed.

Lemma transport_failure_stops_the_call_witness :
  let k := AssignEventToUser (VList [VInt 1; VInt 2; VInt 3]) (VInt 42) in
  let post := service_failing_after 2 response_with_token in
  let headers := auth_headers client (VStr "t0k3n") in
  let out := run_call post json_text client k (mkState 0%nat []) in
  exists ids hs payload,
    call_userId k = VList ids /\ encodes ids hs /\
    let rqs := map (expected_request json_text client k headers payload) hs in
    let rs := responses_to post rqs 1%nat in
    (length rs = length hs -> out.1 = Ok tt) /\
    ((length rs < length hs)%nat -> out.1 = Raise RequestException) /\
    requests_in (trace out.2) =
      requests_in [] ++ expected_login client :: take (S (length rs)) rqs.
Proof.
  apply (transport_failure_stops_the_call (service_failing_after 2 response_with_token)
           json_text client
           (AssignEventToUser (VList [VInt 1; VInt 2; VInt 3]) (VInt 42))
           (mkState 0%nat [])
           (mkState 1%nat [EvPost (expected_login client)])
           (auth_headers client (VStr "t0k3n"))).
  - reflexivity.
  - reflexivity.
Defined.
